(** * gen-ads.py: placeholder advertisement images for the PoolCue boards

    A shallow embedding of the script [gen-ads.py] and the properties of
    it that the specification states.

    The script is a straight line of calls into Pillow ([Image],
    [ImageDraw], [ImageFont]) and into [os].  It is modelled as a program in
    a state-and-exception monad over a [world] made of

    - the file tree ([fs]),
    - the text written to standard output ([stdout]), one entry per
      [print] call,
    - the store of image objects ([heap]): [Image.new] allocates a canvas,
      [ImageDraw.Draw img] is a drawing context that writes into that same
      object, and [img.save] reads it back.

    A canvas records what Pillow was asked to draw (mode, size, background
    and the drawing calls in order).  What the environment decides and
    the script cannot see is a parameter of the development: whether
    [ImageFont.truetype] can open the font file, and the bounding box
    Pillow measures for a text in a font, four integers that Pillow
    computes in C [int]s.

    Integers are Python's, unbounded.  The one float of the script is the
    abscissa [(img_w - tw) / 2] of [center_text]: the true division of two
    integers gives the double nearest to the quotient and raises
    [OverflowError] beyond the largest double; both are modelled, a double
    being kept as the rational it denotes.

    The calls into [os] raise what the shape of the file tree makes them
    raise (a missing parent, a regular file where a directory is needed, a
    directory where a file is to be written); permissions, quotas, device
    errors and a terminal that cannot encode the printed text are not
    modelled.  Drawing calls, measuring and printing always return;
    [textbbox] measures the built-in font as it does any other, as Pillow
    does from version 9.2 on.  A Python string is the string of its UTF-8
    bytes. *)

From Stdlib Require Import ZArith QArith Ascii String List Lia.
From stdpp Require Import base option gmap strings list.

Local Open Scope Z_scope.

(** ** Python values *)

(** The exceptions the modelled calls can raise.  The first four are the
    subclasses of [OSError] that path operations raise; [OSError] stands
    for any other one (Pillow's "cannot open resource"); [OverflowError]
    is what a true division raises.  [InvalidHandle] is
    not a Python exception: it is the outcome of using a handle to which
    the store has no object, which no handle returned by [Image_new] ever
    is. *)
Inductive exception : Type :=
  | FileExistsError
  | FileNotFoundError
  | NotADirectoryError
  | IsADirectoryError
  | OSError (msg : string)
  | ValueError (msg : string)
  | OverflowError
  | KeyboardInterrupt
  | InvalidHandle.

Definition is_OSError (e : exception) : bool :=
  match e with
  | FileExistsError | FileNotFoundError | NotADirectoryError
  | IsADirectoryError | OSError _ => true
  | _ => false
  end.

Definition is_FileExistsError (e : exception) : bool :=
  match e with FileExistsError => true | _ => false end.

(** An RGB colour, as the tuples [(r, g, b)] of the script. *)
Abbreviation color := (Z * Z * Z)%type.

(** A font object: a face of a font file opened at a size, or Pillow's
    built-in default font. *)
Inductive Font : Type :=
  | FreeTypeFont (file : string) (size : Z) (index : Z)
  | DefaultFont.

(** A bounding box [(left, top, right, bottom)]. *)
Abbreviation bbox := (Z * Z * Z * Z)%type.

Definition bbox_left (b : bbox) : Z := b.1.1.1.
Definition bbox_top (b : bbox) : Z := b.1.1.2.
Definition bbox_right (b : bbox) : Z := b.1.2.
Definition bbox_bottom (b : bbox) : Z := b.2.

(** ** Floats *)

(** [nearest53 n] is the integer nearest to [n] among those whose
    significand has at most 53 bits, the precision of a double; halfway
    between two of them the one with the even significand is taken.  Up
    to [2 ^ 53] in absolute value every integer is one of them. *)
Definition nearest53 (n : Z) : Z :=
  let a := Z.abs n in
  let k := Z.log2 a - 52 in
  if k <=? 0 then n
  else
    let q := a / 2 ^ k in
    let r := a mod 2 ^ k in
    let half := 2 ^ (k - 1) in
    let up := ((half <? r) || ((r =? half) && Z.odd q))%bool in
    Z.sgn n * ((if up then q + 1 else q) * 2 ^ k).

(** [n / 2] on a Python integer [n]: the double nearest to the quotient.
    Halving changes the exponent only, so this is half of [nearest53 n];
    the division raises when the rounded quotient reaches [2 ^ 1024],
    which no double holds. *)
Definition int_truediv_2 (n : Z) : exception + Q :=
  let m := nearest53 n in
  if 2 ^ 1025 <=? Z.abs m then inl OverflowError
  else inr (inject_Z m / 2)%Q.


(** ** Images *)

(** One call on a drawing context.  The abscissa of a text is the result of
    a true division, a Python float: it is kept as the rational that the
    double denotes. *)
Inductive draw_op : Type :=
  | OpLine (xy : list (Z * Z)) (fill : color) (width : Z)
  | OpText (xy : Q * Z) (text : string) (fnt : Font) (fill : color).

Record canvas : Type := Canvas {
  mode : string;
  size : Z * Z;
  background : color;
  ops : list draw_op
}.

Definition width (c : canvas) : Z := (size c).1.
Definition height (c : canvas) : Z := (size c).2.

Definition add_op (op : draw_op) (c : canvas) : canvas :=
  {| mode := mode c; size := size c; background := background c;
     ops := ops c ++ [op] |}.

(** Handles to image objects, and drawing contexts on them. *)
Abbreviation Image := nat.
Record ImageDraw : Type := Draw { im : Image }.

(** ** The file tree *)

(** A path is the list of its components, the last one first, so that the
    tail of a path is its parent directory; [[]] is the root. *)
Abbreviation path := (list string).

Inductive content : Type :=
  | Encoded (format : string) (c : canvas)
  | Bytes (data : string).

Inductive node : Type :=
  | Dir
  | File (data : content).

Definition push_component (cur : string) (acc : path) : path :=
  match cur with EmptyString => acc | _ => cur :: acc end.

Fixpoint split_components (s cur : string) (acc : path) : path :=
  match s with
  | EmptyString => push_component cur acc
  | String c s' =>
      if Ascii.eqb c "/"%char then split_components s' EmptyString (push_component cur acc)
      else split_components s' (cur +:+ String c EmptyString) acc
  end.

(** The components of an absolute path name; repeated and trailing
    separators are ignored, as the operating system does. *)
Definition components (name : string) : path :=
  split_components name EmptyString [].

Fixpoint ends_with_sep (s : string) : bool :=
  match s with
  | EmptyString => false
  | String c EmptyString => Ascii.eqb c "/"%char
  | String _ s' => ends_with_sep s'
  end.

(** [os.path.join a b] of [posixpath]. *)
Definition os_path_join (a b : string) : string :=
  if String.prefix "/" b then b
  else if (String.eqb a EmptyString || ends_with_sep a)%bool then a +:+ b
  else a +:+ "/" +:+ b.

Definition node_at (m : gmap path node) (p : path) : option node :=
  match p with
  | [] => Some Dir
  | _ => m !! p
  end.

(** Every entry of a file tree sits in a directory. *)
Definition fs_wf (m : gmap path node) : Prop :=
  forall (t : string) (h : path) (n : node),
    m !! (t :: h) = Some n -> node_at m h = Some Dir.

(** ** The world and the monad of the script *)

Record world : Type := World {
  fs : gmap path node;
  stdout : list string;
  heap : list canvas
}.

Definition set_fs (m : gmap path node) (w : world) : world :=
  {| fs := m; stdout := stdout w; heap := heap w |}.
Definition set_stdout (o : list string) (w : world) : world :=
  {| fs := fs w; stdout := o; heap := heap w |}.
Definition set_heap (h : list canvas) (w : world) : world :=
  {| fs := fs w; stdout := stdout w; heap := h |}.

(** A computation runs from a world to a world and either raises or
    returns.  What was done before an exception stays done. *)
Definition M (A : Type) : Type := world -> world * (exception + A).

#[global] Instance M_ret : MRet M := fun A (a : A) w => (w, inr a).

#[global] Instance M_bind : MBind M := fun A B (k : A -> M B) (m : M A) w =>
  match m w with
  | (w', inr a) => k a w'
  | (w', inl e) => (w', inl e)
  end.

Definition raise {A : Type} (e : exception) : M A := fun w => (w, inl e).

(** [try: m except: h], with the exception passed to the handler. *)
Definition try_except {A : Type} (m : M A) (h : exception -> M A) : M A :=
  fun w =>
    match m w with
    | (w', inl e) => h e w'
    | r => r
    end.

(** The expression [n / 2], as a step of a computation. *)
Definition truediv_2 (n : Z) : M Q := fun w =>
  match int_truediv_2 n with
  | inl e => (w, inl e)
  | inr x => (w, inr x)
  end.

(** ** The calls into [os] *)

Definition os_path_exists (p : path) : M bool := fun w =>
  (w, inr (match node_at (fs w) p with Some _ => true | None => false end)).

Definition os_path_isdir (p : path) : M bool := fun w =>
  (w, inr (match node_at (fs w) p with Some Dir => true | _ => false end)).

Definition os_mkdir (p : path) : M unit := fun w =>
  match p with
  | [] => (w, inl FileExistsError)
  | _ :: parent =>
      match node_at (fs w) parent with
      | None => (w, inl FileNotFoundError)
      | Some (File _) => (w, inl NotADirectoryError)
      | Some Dir =>
          match fs w !! p with
          | Some _ => (w, inl FileExistsError)
          | None => (set_fs (<[p := Dir]> (fs w)) w, inr tt)
          end
      end
  end.

(** The two [except] clauses of [os.makedirs]: [except FileExistsError:
    pass] around the recursive call, and [except OSError: if not exist_ok
    or not path.isdir(name): raise] around the last [mkdir]. *)
Definition pass_FileExistsError (e : exception) : M unit :=
  if is_FileExistsError e then mret tt else raise e.

Definition reraise_unless_isdir (name : path) (exist_ok : bool)
    (e : exception) : M unit :=
  if is_OSError e then
    isd ← os_path_isdir name;
    if (negb exist_ok || negb isd)%bool then raise e else mret tt
  else raise e.

(** [os.makedirs] of CPython, on the components of its argument: the
    missing ancestors are made first, then the leaf; with [exist_ok] an
    error of the last [mkdir] is dropped when the leaf is a directory. *)
Fixpoint makedirs (name : path) (exist_ok : bool) : M unit :=
  (match name with
   | [] => mret tt
   | _ :: head =>
       ex ← os_path_exists head;
       if negb ex then
         try_except (makedirs head exist_ok) pass_FileExistsError
       else mret tt
   end);;
  try_except (os_mkdir name) (reraise_unless_isdir name exist_ok).

Definition os_makedirs (name : string) (exist_ok : bool) : M unit :=
  makedirs (components name) exist_ok.

(** Opening [p] for writing and storing [data] there: the parent has to
    be a directory and [p] itself must not be one; an existing file is
    replaced. *)
Definition write_file (m : gmap path node) (p : path) (data : content)
  : exception + gmap path node :=
  match p with
  | [] => inl IsADirectoryError
  | _ :: parent =>
      match node_at m parent with
      | None => inl FileNotFoundError
      | Some (File _) => inl NotADirectoryError
      | Some Dir =>
          match m !! p with
          | Some Dir => inl IsADirectoryError
          | _ => inr (<[p := File data]> m)
          end
      end
  end.

Definition print (s : string) : M unit := fun w =>
  (set_stdout (stdout w ++ [s]) w, inr tt).

(** ** The calls into Pillow *)

Definition Image_new (md : string) (sz : Z * Z) (col : color) : M Image :=
  fun w =>
    (set_heap (heap w ++ [Canvas md sz col []]) w, inr (length (heap w))).

(** [ImageDraw.Draw img] draws into [img] itself. *)
Definition ImageDraw_Draw (img : Image) : M ImageDraw := mret (Draw img).

Definition update_canvas (h : Image) (f : canvas -> canvas) : M unit :=
  fun w =>
    match heap w !! h with
    | Some c => (set_heap (<[h := f c]> (heap w)) w, inr tt)
    | None => (w, inl InvalidHandle)
    end.

Definition ImageDraw_line (d : ImageDraw) (xy : list (Z * Z)) (fill : color)
    (wd : Z) : M unit :=
  update_canvas (im d) (add_op (OpLine xy fill wd)).

Definition ImageDraw_text (d : ImageDraw) (xy : Q * Z) (text : string)
    (fnt : Font) (fill : color) : M unit :=
  update_canvas (im d) (add_op (OpText xy text fnt fill)).

Definition Image_save (img : Image) (filename format : string) : M unit :=
  fun w =>
    match heap w !! img with
    | None => (w, inl InvalidHandle)
    | Some c =>
        match write_file (fs w) (components filename) (Encoded format c) with
        | inl e => (w, inl e)
        | inr m => (set_fs m w, inr tt)
        end
    end.

(** ** The environment *)

(** A box as Pillow measures one: it takes the offset and the size of
    the text from C [int]s and adds them, so that no coordinate is beyond
    [2 ^ 32] in absolute value. *)
Definition measured (b : bbox) : Prop :=
  Z.abs (bbox_left b) <= 2 ^ 32 /\ Z.abs (bbox_top b) <= 2 ^ 32 /\
  Z.abs (bbox_right b) <= 2 ^ 32 /\ Z.abs (bbox_bottom b) <= 2 ^ 32.

(** What the machine the script runs on decides: [truetype_error file size
    index] is the exception [ImageFont.truetype] raises for these
    arguments, if it raises one; [text_extent fnt text] is the bounding
    box Pillow measures for [text] drawn in [fnt] at the origin. *)
Record environment : Type := Environment {
  truetype_error : string -> Z -> Z -> option exception;
  text_extent : Font -> string -> bbox;
  text_extent_measured : forall (fnt : Font) (text : string),
    measured (text_extent fnt text)
}.

(** ** The script *)

Section Script.

Variable E : environment.

Definition ImageFont_truetype (file : string) (sz index : Z) : M Font :=
  match truetype_error E file sz index with
  | Some e => raise e
  | None => mret (FreeTypeFont file sz index)
  end.

Definition ImageFont_load_default : M Font := mret DefaultFont.

Definition ImageDraw_textbbox (d : ImageDraw) (xy : Z * Z) (text : string)
    (fnt : Font) : M bbox :=
  let b := text_extent E fnt text in
  mret (bbox_left b + xy.1, bbox_top b + xy.2,
        bbox_right b + xy.1, bbox_bottom b + xy.2).

Definition OUT : string :=
  "/Users/frankgranato/Desktop/claude projects/PoolCue-v2/public/ads".

Definition BG : color := (10, 10, 10).
Definition GOLD : color := (245, 197, 24).
Definition DIM : color := (100, 100, 100).
Definition WHITE : color := (220, 220, 220).
Definition DARK_LINE : color := (30, 30, 30).

Definition Helvetica : string := "/System/Library/Fonts/Helvetica.ttc".

(** [font(size, bold=False)]: the bare [except] catches whatever the
    loader raises. *)
Definition font (sz : Z) (bold : bool) : M Font :=
  let idx := if bold then 1 else 0 in
  try_except (ImageFont_truetype Helvetica sz idx)
    (fun _ => ImageFont_load_default).

Definition center_text (draw : ImageDraw) (y : Z) (text : string)
    (fnt : Font) (fill : color) (img_w : Z) : M unit :=
  b ← ImageDraw_textbbox draw (0, 0) text fnt;
  let tw := bbox_right b - bbox_left b in
  x ← truediv_2 (img_w - tw);
  ImageDraw_text draw (x, y) text fnt fill.

(** [draw_gold_line(draw, y, w, margin=80)]; every call of the script
    gives the margin. *)
Definition draw_gold_line (draw : ImageDraw) (y w margin : Z) : M unit :=
  ImageDraw_line draw [(margin, y); (w - margin, y)] DARK_LINE 1.

Definition draw_gold_line_default_margin : Z := 80.

(** 1. Game banner, 1080 x 90 *)
Definition banner_block : M unit :=
  img ← Image_new "RGB" (1080, 90) BG;
  d ← ImageDraw_Draw img;
  draw_gold_line d 1 1080 40;;
  f_main ← font 22 true;
  f_dim ← font 18 false;
  let line := "YOUR AD HERE" in
  let sub := "Advertise on our boards  ·  poolcue.io" in
  center_text d 20 line f_main GOLD 1080;;
  center_text d 50 sub f_dim DIM 1080;;
  Image_save img (os_path_join OUT "ad-banner-1080x90.png") "PNG";;
  print "✅ Banner 1080x90".

(** 2. Idle top/bottom, 1080 x 240 *)
Definition idle_block : M unit :=
  img ← Image_new "RGB" (1080, 240) BG;
  d ← ImageDraw_Draw img;
  draw_gold_line d 1 1080 100;;
  draw_gold_line d 238 1080 100;;
  f_head ← font 36 true;
  f_sub ← font 22 false;
  f_contact ← font 20 false;
  center_text d 45 "YOUR AD HERE" f_head GOLD 1080;;
  center_text d 100 "Interested in advertising on our boards?" f_sub WHITE 1080;;
  center_text d 145 "Reach out at  poolcue.io" f_contact DIM 1080;;
  f_tiny ← font 13 false;
  center_text d 205 "POOL CUE" f_tiny (40, 40, 40) 1080;;
  Image_save img (os_path_join OUT "ad-idle-1080x240.png") "PNG";;
  print "✅ Idle 1080x240".

(** 3. Side ad, a horizontal 1080 x 120 image shown rotated *)
Definition side_block : M unit :=
  img ← Image_new "RGB" (1080, 120) BG;
  d ← ImageDraw_Draw img;
  draw_gold_line d 1 1080 60;;
  draw_gold_line d 118 1080 60;;
  f_side ← font 26 true;
  f_side_sub ← font 18 false;
  center_text d 25 "YOUR AD HERE" f_side GOLD 1080;;
  center_text d 65 "Advertise on our boards  ·  poolcue.io" f_side_sub DIM 1080;;
  Image_save img (os_path_join OUT "ad-side-1080x120.png") "PNG";;
  print "✅ Side 1080x120".

Definition summary_line : string :=
  String "010"%char ("All ads saved to " +:+ OUT).

Definition main : M unit :=
  os_makedirs OUT true;;
  banner_block;;
  idle_block;;
  side_block;;
  print summary_line.

End Script.

(** ** What the blocks draw, in closed form *)

Section Canvases.

Variable E : environment.

(** The font [font sz bold] evaluates to. *)
Definition resolve_font (sz : Z) (bold : bool) : Font :=
  let idx := if bold then 1 else 0 in
  match truetype_error E Helvetica sz idx with
  | None => FreeTypeFont Helvetica sz idx
  | Some _ => DefaultFont
  end.

Definition text_width (fnt : Font) (text : string) : Z :=
  bbox_right (text_extent E fnt text) - bbox_left (text_extent E fnt text).

(** The call [center_text] issues where the quotient is exact, as it is
    on the surfaces of the script, and the one [draw_gold_line] issues. *)
Definition centered (y : Z) (text : string) (fnt : Font) (fill : color)
    (img_w : Z) : draw_op :=
  OpText ((inject_Z (img_w - text_width fnt text) / 2)%Q, y) text fnt fill.

Definition rule (y w margin : Z) : draw_op :=
  OpLine [(margin, y); (w - margin, y)] DARK_LINE 1.

Definition banner_canvas : canvas :=
  Canvas "RGB" (1080, 90) BG
    [ rule 1 1080 40;
      centered 20 "YOUR AD HERE" (resolve_font 22 true) GOLD 1080;
      centered 50 "Advertise on our boards  ·  poolcue.io"
        (resolve_font 18 false) DIM 1080 ].

Definition idle_canvas : canvas :=
  Canvas "RGB" (1080, 240) BG
    [ rule 1 1080 100;
      rule 238 1080 100;
      centered 45 "YOUR AD HERE" (resolve_font 36 true) GOLD 1080;
      centered 100 "Interested in advertising on our boards?"
        (resolve_font 22 false) WHITE 1080;
      centered 145 "Reach out at  poolcue.io" (resolve_font 20 false) DIM 1080;
      centered 205 "POOL CUE" (resolve_font 13 false) (40, 40, 40) 1080 ].

Definition side_canvas : canvas :=
  Canvas "RGB" (1080, 120) BG
    [ rule 1 1080 60;
      rule 118 1080 60;
      centered 25 "YOUR AD HERE" (resolve_font 26 true) GOLD 1080;
      centered 65 "Advertise on our boards  ·  poolcue.io"
        (resolve_font 18 false) DIM 1080 ].

End Canvases.

(** The three files, as the script names them and as paths of the tree. *)
Definition banner_file : string := os_path_join OUT "ad-banner-1080x90.png".
Definition idle_file : string := os_path_join OUT "ad-idle-1080x240.png".
Definition side_file : string := os_path_join OUT "ad-side-1080x120.png".

Definition OUT_path : path := Eval vm_compute in components OUT.
Definition banner_path : path := Eval vm_compute in components banner_file.
Definition idle_path : path := Eval vm_compute in components idle_file.
Definition side_path : path := Eval vm_compute in components side_file.

Definition banner_line : string := "✅ Banner 1080x90".
Definition idle_line : string := "✅ Idle 1080x240".
Definition side_line : string := "✅ Side 1080x120".

(** A block seen from outside: a canvas comes to be, it is written to a
    file, and a line is printed once the file is there. *)
Definition emit (c : canvas) (p : path) (msg : string) : M unit := fun w =>
  match write_file (fs w) p (Encoded "PNG" c) with
  | inl e => (set_heap (heap w ++ [c]) w, inl e)
  | inr m => (World m (stdout w ++ [msg]) (heap w ++ [c]), inr tt)
  end.

(** Counting the calls of each kind on a canvas. *)
Definition is_text (op : draw_op) : bool :=
  match op with OpText _ _ _ _ => true | OpLine _ _ _ => false end.
Definition is_line (op : draw_op) : bool :=
  match op with OpLine _ _ _ => true | OpText _ _ _ _ => false end.
Definition text_count (c : canvas) : nat := length (List.filter is_text (ops c)).
Definition rule_count (c : canvas) : nat := length (List.filter is_line (ops c)).

(** The canvases a run has made and the lines it has printed. *)
Definition produced (w w' : world) : list canvas :=
  drop (length (heap w)) (heap w').
Definition printed (w w' : world) : list string :=
  drop (length (stdout w)) (stdout w').

(** What a run that returns has made and printed, in order. *)
Definition canvases (E : environment) : list canvas :=
  [banner_canvas E; idle_canvas E; side_canvas E].
Definition lines : list string :=
  [banner_line; idle_line; side_line; summary_line].

(** The text that a list of [print] calls puts on standard output: each
    call writes its argument and a newline. *)
Definition output_text (calls : list string) : string :=
  fold_right (fun s rest => s +:+ String "010"%char rest) EmptyString calls.

(** The lines of a text: what stands before each newline, and what is
    left after the last one if anything is. *)
Fixpoint text_lines_from (s cur : string) : list string :=
  match s with
  | EmptyString => match cur with EmptyString => [] | _ => [cur] end
  | String c s' =>
      if Ascii.eqb c "010"%char then cur :: text_lines_from s' EmptyString
      else text_lines_from s' (cur +:+ String c EmptyString)
  end.

Definition text_lines (s : string) : list string :=
  text_lines_from s EmptyString.

(** The file [p] holds the image [c]. *)
Definition holds (m : gmap path node) (p : path) (c : canvas) : Prop :=
  m !! p = Some (File (Encoded "PNG" c)).

(** The output directory is there and none of the three file names is
    taken by a directory. *)
Definition writable (m : gmap path node) : Prop :=
  node_at m OUT_path = Some Dir /\
  m !! banner_path <> Some Dir /\
  m !! idle_path <> Some Dir /\
  m !! side_path <> Some Dir.

(** [grows name w w']: from [w] to [w'] nothing was printed or drawn, and
    the tree only gained directories, each at [name] or above it. *)
Definition grows (name : path) (w w' : world) : Prop :=
  stdout w' = stdout w /\ heap w' = heap w /\
  (forall q : path,
      fs w' !! q = fs w !! q \/
      (fs w !! q = None /\ fs w' !! q = Some Dir /\ q `suffix_of` name)) /\
  (fs_wf (fs w) -> fs_wf (fs w')).

(** No regular file at [name] or above it. *)
Definition unobstructed (m : gmap path node) (name : path) : Prop :=
  forall (q : path) (d : content),
    q `suffix_of` name -> node_at m q <> Some (File d).

(** A tree the script can write its output to: nothing is in the way of
    the output directory, and no directory has the name of an image. *)
Definition admits (m : gmap path node) : Prop :=
  fs_wf m /\ unobstructed m OUT_path /\
  m !! banner_path <> Some Dir /\
  m !! idle_path <> Some Dir /\
  m !! side_path <> Some Dir.

(** The fonts a canvas has text in. *)
Definition fonts_of (c : canvas) : list Font :=
  flat_map (fun op => match op with
                      | OpText _ _ fnt _ => [fnt]
                      | OpLine _ _ _ => []
                      end) (ops c).

(** A text of canvas [c] is centred on the width of [c] itself. *)
Definition centred_on (E : environment) (c : canvas) (op : draw_op) : Prop :=
  match op with
  | OpText (x, _) text fnt _ =>
      (x == (inject_Z (width c) - inject_Z (text_width E fnt text)) / 2)%Q
  | OpLine _ _ _ => True
  end.

(** The tree once the three images are written. *)
Definition saved (E : environment) (m : gmap path node) : gmap path node :=
  <[side_path := File (Encoded "PNG" (side_canvas E))]>
    (<[idle_path := File (Encoded "PNG" (idle_canvas E))]>
       (<[banner_path := File (Encoded "PNG" (banner_canvas E))]> m)).

(** What opening [p] for writing raises, if it raises: it depends on the
    shape of the tree only, not on what is to be written. *)
Definition write_error (m : gmap path node) (p : path) : option exception :=
  match p with
  | [] => Some IsADirectoryError
  | _ :: parent =>
      match node_at m parent with
      | None => Some FileNotFoundError
      | Some (File _) => Some NotADirectoryError
      | Some Dir =>
          match m !! p with
          | Some Dir => Some IsADirectoryError
          | _ => None
          end
      end
  end.

(** How a run ends on a tree, read off the tree alone: what [makedirs]
    raises, or else what the first [save] that cannot open its file
    raises, or else nothing. *)
Definition run_outcome (w : world) : exception + unit :=
  match makedirs OUT_path true w with
  | (_, inl e) => inl e
  | (u, inr _) =>
      match write_error (fs u) banner_path with
      | Some e => inl e
      | None =>
          match write_error (fs u) idle_path with
          | Some e => inl e
          | None =>
              match write_error (fs u) side_path with
              | Some e => inl e
              | None => inr tt
              end
          end
      end
  end.

(** What a run prints on a tree, read off the tree alone. *)
Definition run_printed (w : world) : list string :=
  match makedirs OUT_path true w with
  | (_, inl _) => []
  | (u, inr _) =>
      match write_error (fs u) banner_path with
      | Some _ => []
      | None =>
          match write_error (fs u) idle_path with
          | Some _ => [banner_line]
          | None =>
              match write_error (fs u) side_path with
              | Some _ => [banner_line; idle_line]
              | None => lines
              end
          end
      end
  end.

(** A font the script may set text in: the built-in one, or a face of
    Helvetica that the loader opened. *)
Definition font_in_use (E : environment) (f : Font) : Prop :=
  f = DefaultFont \/
  exists (sz : Z) (idx : Z),
    f = FreeTypeFont Helvetica sz idx /\ (idx = 0 \/ idx = 1) /\
    truetype_error E Helvetica sz idx = None.

(** ** Sample environments *)

Definition w0 : world := World ∅ [] [].


(** The empty tree once the output directory is made. *)
Definition w_ready : world := (os_makedirs OUT true w0).1.

(** A machine that has been used: a home directory with a file in it,
    earlier output on the terminal, an image in memory. *)
Definition w_used : world :=
  World (<[ ["notes.txt"; "Users"] := File (Bytes "remember the chalk") ]>
           (<[ ["Users"] := Dir ]> ∅))
        ["earlier output"]
        [Canvas "L" (1, 1) (0, 0, 0) []].

(** A tree on which [/Users] is a regular file. *)
Definition w_obstructed : world :=
  World {[ ["Users"] := File (Bytes "") ]} [] [].

(** The output directory is there, and in it a directory with the name
    of the second image. *)
Definition w_idle_taken : world :=
  World (<[idle_path := Dir]> (fs w_ready)) [] [].

(** A world with one blank canvas, at handle [0]. *)
Definition w_blank : world := World ∅ [] [Canvas "RGB" (1080, 90) BG []].

(** Ten units a byte, twelve high, as far as a C [int] goes. *)
Definition sample_extent (f : Font) (s : string) : bbox :=
  (0, 0, Z.min (Z.of_nat (String.length s) * 10) 2147483647, 12).


Definition sample_extent_measured (f : Font) (s : string) :
  measured (sample_extent f s).
Proof.
  unfold measured, sample_extent, bbox_left, bbox_top, bbox_right, bbox_bottom.
  simpl.
  change (2 ^ 32) with 4294967296. lia.
Qed.


Definition fonts_present : environment :=
  {| truetype_error := fun _ _ _ => None;
     text_extent := sample_extent;
     text_extent_measured := sample_extent_measured |}.
Definition fonts_absent : environment :=
  {| truetype_error := fun _ _ _ => Some (OSError "cannot open resource");
     text_extent := sample_extent;
     text_extent_measured := sample_extent_measured |}.

(** A loader interrupted at every call. *)
Definition fonts_interrupted : environment :=
  {| truetype_error := fun _ _ _ => Some KeyboardInterrupt;
     text_extent := sample_extent;
     text_extent_measured := sample_extent_measured |}.



(** * Properties *)

(** ** Running a computation step by step *)

Lemma bind_ok {A B : Type} (m : M A) (k : A -> M B) (w w' : world) (a : A) :
  m w = (w', inr a) -> (m ≫= k) w = k a w'.
Proof. intros H. unfold mbind, M_bind. now rewrite H. Qed.

Lemma bind_raise {A B : Type} (m : M A) (k : A -> M B) (w w' : world)
    (e : exception) :
  m w = (w', inl e) -> (m ≫= k) w = (w', inl e).
Proof. intros H. unfold mbind, M_bind. now rewrite H. Qed.

Lemma bind_inv {A B : Type} (m : M A) (k : A -> M B) (w w2 : world) (b : B) :
  (m ≫= k) w = (w2, inr b) ->
  exists w1 a, m w = (w1, inr a) /\ k a w1 = (w2, inr b).
Proof.
  unfold mbind, M_bind. destruct (m w) as [w1 [e | a]]; [discriminate |].
  intros H. now exists w1, a.
Qed.

(** A computation whose outcome is a value returned it. *)
Lemma returns_snd {A : Type} (r : world * (exception + A)) (a : A) :
  r.2 = inr a -> r = (r.1, inr a).
Proof. destruct r as [w o]. simpl. now intros ->. Qed.

Lemma raises_snd {A : Type} (r : world * (exception + A)) (e : exception) :
  r.2 = inl e -> r = (r.1, inl e).
Proof. destruct r as [w o]. simpl. now intros ->. Qed.

Lemma lookup_snoc {A : Type} (l : list A) (x : A) :
  (l ++ [x]) !! length l = Some x.
Proof. now apply list_lookup_middle. Qed.

Lemma insert_snoc {A : Type} (l : list A) (x y : A) :
  <[length l := y]> (l ++ [x]) = l ++ [y].
Proof. induction l as [| a l IH]; simpl; [reflexivity | now rewrite IH]. Qed.

(** ** True division by two *)

(** Up to [2 ^ 53] in absolute value an integer is its own rounding. *)
Lemma nearest53_exact (n : Z) : Z.abs n <= 2 ^ 53 -> nearest53 n = n.
Proof.
  intros Hn. unfold nearest53.
  destruct (Z.eq_dec (Z.abs n) (2 ^ 53)) as [Heq | Hne].
  - rewrite Heq. change (Z.log2 (2 ^ 53) - 52 <=? 0) with false. cbv iota.
    change (2 ^ 53 / 2 ^ (Z.log2 (2 ^ 53) - 52)) with (2 ^ 52).
    change (2 ^ 53 mod 2 ^ (Z.log2 (2 ^ 53) - 52)) with 0.
    change (2 ^ (Z.log2 (2 ^ 53) - 52 - 1)) with 1.
    change (2 ^ (Z.log2 (2 ^ 53) - 52)) with 2.
    change ((1 <? 0) || (0 =? 1) && Z.odd (2 ^ 52))%bool with false. cbv iota.
    change (2 ^ 52 * 2) with (2 ^ 53). rewrite <- Heq. 
    rewrite Z.mul_comm. apply Z.abs_sgn.
  - assert (Z.log2 (Z.abs n) - 52 <= 0) as Hk.
    { destruct (Z.eq_dec (Z.abs n) 0) as [-> | H0]; [discriminate |].
      assert (Z.log2 (Z.abs n) < 53) by (apply Z.log2_lt_pow2; lia). lia. }
    apply Z.leb_le in Hk. now rewrite Hk.
Qed.




Lemma int_truediv_2_exact (n : Z) :
  Z.abs n <= 2 ^ 53 -> int_truediv_2 n = inr (inject_Z n / 2)%Q.
Proof.
  intros Hn. unfold int_truediv_2. rewrite nearest53_exact by assumption.
  assert ((2 ^ 1025 <=? Z.abs n) = false) as ->; [| reflexivity].
  apply Z.leb_gt. apply Z.le_lt_trans with (2 ^ 53); [assumption |].
  apply Z.pow_lt_mono_r; lia.
Qed.



(** ** The calls on a drawing context *)

Lemma update_canvas_live (h : Image) (f : canvas -> canvas) (w : world)
    (c : canvas) :
  heap w !! h = Some c ->
  update_canvas h f w = (set_heap (<[h := f c]> (heap w)) w, inr tt).
Proof. intros H. unfold update_canvas. now rewrite H. Qed.

Lemma update_canvas_newest (f : canvas -> canvas) (m : gmap path node)
    (o : list string) (l : list canvas) (c : canvas) :
  update_canvas (length l) f (World m o (l ++ [c]))
  = (World m o (l ++ [f c]), inr tt).
Proof.
  unfold update_canvas, set_heap. simpl.
  now rewrite lookup_snoc, insert_snoc.
Qed.

(** ** The file tree under [os.mkdir] and [os.makedirs] *)

Lemma grows_refl (name : path) (w : world) : grows name w w.
Proof. repeat split; auto. Qed.

Lemma grows_trans (name : path) (w1 w2 w3 : world) :
  grows name w1 w2 -> grows name w2 w3 -> grows name w1 w3.
Proof.
  intros (Ho1 & Hh1 & Hq1 & Hw1) (Ho2 & Hh2 & Hq2 & Hw2).
  repeat split; try congruence; [| tauto].
  intros q. destruct (Hq1 q) as [E1 | (N1 & D1 & S1)];
    destruct (Hq2 q) as [E2 | (N2 & D2 & S2)].
  - left. congruence.
  - right. repeat split; congruence || assumption.
  - right. repeat split; congruence || assumption.
  - congruence.
Qed.

Lemma grows_parent (t : string) (head : path) (w w' : world) :
  grows head w w' -> grows (t :: head) w w'.
Proof.
  intros (Ho & Hh & Hq & Hw). repeat split; auto.
  intros q. destruct (Hq q) as [? | (? & ? & ?)]; [now left | right].
  repeat split; auto. now apply suffix_cons_r.
Qed.

Lemma fs_wf_insert_dir (m : gmap path node) (t : string) (head : path) :
  fs_wf m -> node_at m head = Some Dir -> m !! (t :: head) = None ->
  fs_wf (<[t :: head := Dir]> m).
Proof.
  intros Hwf Hp Hnone t' h' n.
  rewrite lookup_insert. case_decide as Heq.
  - injection Heq as <- <-. intros _.
    destruct head as [| a head]; [reflexivity |].
    simpl in *. rewrite lookup_insert_ne; [assumption |].
    intros Hbad. apply (f_equal length) in Hbad. simpl in Hbad. lia.
  - intros Hl. specialize (Hwf _ _ _ Hl).
    destruct h' as [| a h']; [reflexivity |].
    simpl in *. rewrite lookup_insert. case_decide as Heq2; [| assumption].
    congruence.
Qed.

Lemma os_mkdir_grows (p : path) (w : world) : grows p w (os_mkdir p w).1.
Proof.
  unfold os_mkdir. destruct p as [| t head]; [apply grows_refl |].
  destruct (node_at (fs w) head) as [[| d] |] eqn:Hp; try apply grows_refl.
  destruct (fs w !! (t :: head)) eqn:Hl; [apply grows_refl |].
  unfold grows, set_fs. simpl. repeat split; auto.
  - intros q. rewrite lookup_insert. case_decide as Heq; [| now left].
    subst q. right. repeat split; auto.
  - intros Hwf. now apply fs_wf_insert_dir.
Qed.

(** The handler of the last [mkdir] only looks. *)
Lemma reraise_unless_isdir_state (name : path) (exist_ok : bool)
    (e : exception) (w : world) :
  (reraise_unless_isdir name exist_ok e w).1 = w.
Proof.
  unfold reraise_unless_isdir. destruct (is_OSError e); [| reflexivity].
  unfold mbind, M_bind, os_path_isdir. simpl.
  destruct (negb exist_ok || negb _)%bool; reflexivity.
Qed.

Lemma makedirs_cons (t : string) (head : path) (exist_ok : bool) :
  makedirs (t :: head) exist_ok =
  ((ex ← os_path_exists head;
    if negb ex then try_except (makedirs head exist_ok) pass_FileExistsError
    else mret tt);;
   try_except (os_mkdir (t :: head))
     (reraise_unless_isdir (t :: head) exist_ok)).
Proof. reflexivity. Qed.

Lemma last_mkdir_grows (name : path) (exist_ok : bool) (w : world) :
  grows name w
    (try_except (os_mkdir name) (reraise_unless_isdir name exist_ok) w).1.
Proof.
  unfold try_except. pose proof (os_mkdir_grows name w) as H.
  destruct (os_mkdir name w) as [w1 [e | []]]; simpl in *; [| assumption].
  now rewrite reraise_unless_isdir_state.
Qed.

Lemma makedirs_grows (name : path) (exist_ok : bool) (w : world) :
  grows name w (makedirs name exist_ok w).1.
Proof.
  revert w. induction name as [| t head IH]; intros w.
  - simpl. unfold mbind at 1, M_bind at 1. simpl. apply last_mkdir_grows.
  - rewrite makedirs_cons. unfold mbind at 1, M_bind at 1.
    match goal with
    | |- context [match ?pre w with _ => _ end] =>
        assert (grows (t :: head) w (pre w).1) as Hpre;
        [| destruct (pre w) as [w1 [e | []]]; simpl in Hpre |- * ]
    end.
    + unfold mbind, M_bind, os_path_exists. simpl.
      destruct (node_at (fs w) head); simpl; [apply grows_refl |].
      unfold try_except. specialize (IH w). apply (grows_parent t) in IH.
      destruct (makedirs head exist_ok w) as [w1 [e | []]]; simpl in *;
        [| assumption].
      unfold pass_FileExistsError. destruct (is_FileExistsError e); assumption.
    + assumption.
    + eapply grows_trans; [exact Hpre | apply last_mkdir_grows].
Qed.

(** After a [makedirs] that returned, the leaf is a directory. *)
Lemma makedirs_isdir (name : path) (exist_ok : bool) (w w' : world) :
  makedirs name exist_ok w = (w', inr tt) ->
  node_at (fs w') name = Some Dir.
Proof.
  destruct name as [| t head]; [reflexivity |].
  rewrite makedirs_cons. intros H.
  apply bind_inv in H as (w1 & [] & _ & H).
  unfold try_except, os_mkdir, reraise_unless_isdir in H.
  destruct (node_at (fs w1) head) as [[| d] |];
    [destruct (fs w1 !! (t :: head)) eqn:Hl | |].
  1, 3, 4:
    simpl in H; unfold mbind, M_bind, os_path_isdir in H; simpl in H;
    destruct (fs w1 !! (t :: head)) as [[| d'] |] eqn:Hl';
    destruct exist_ok; simpl in H; try discriminate;
    injection H as <-; simpl; assumption.
  injection H as <-. simpl. apply lookup_insert_eq.
Qed.

(** On a directory that is there, [makedirs] with [exist_ok] changes
    nothing, and without it raises. *)
Lemma makedirs_existing (name : path) (w : world) :
  fs_wf (fs w) -> node_at (fs w) name = Some Dir ->
  makedirs name true w = (w, inr tt).
Proof.
  intros Hwf Hd. destruct name as [| t head]; [reflexivity |].
  simpl in Hd. pose proof (Hwf _ _ _ Hd) as Hp.
  rewrite makedirs_cons.
  unfold reraise_unless_isdir, mbind, M_bind, os_path_exists, try_except,
    os_mkdir, os_path_isdir.
  simpl. rewrite Hp. simpl. rewrite Hp, Hd. simpl. now rewrite Hd.
Qed.

Lemma makedirs_existing_strict (name : path) (w : world) :
  fs_wf (fs w) -> node_at (fs w) name = Some Dir ->
  makedirs name false w = (w, inl FileExistsError).
Proof.
  intros Hwf Hd. destruct name as [| t head]; [reflexivity |].
  simpl in Hd. pose proof (Hwf _ _ _ Hd) as Hp.
  rewrite makedirs_cons.
  unfold reraise_unless_isdir, mbind, M_bind, os_path_exists, try_except,
    os_mkdir, os_path_isdir.
  simpl. rewrite Hp. simpl. rewrite Hp, Hd. simpl. reflexivity.
Qed.

(** In a tree where no regular file is in the way, [makedirs] with
    [exist_ok] returns. *)
Lemma makedirs_unobstructed (name : path) (w : world) :
  fs_wf (fs w) -> unobstructed (fs w) name ->
  exists w', makedirs name true w = (w', inr tt).
Proof.
  revert w. induction name as [| t head IH]; intros w Hwf Hfree.
  - exists w. reflexivity.
  - rewrite makedirs_cons.
    assert (forall w1 : world,
      fs_wf (fs w1) -> node_at (fs w1) head = Some Dir ->
      (forall d, fs w1 !! (t :: head) <> Some (File d)) ->
      exists w',
        try_except (os_mkdir (t :: head))
          (reraise_unless_isdir (t :: head) true) w1 = (w', inr tt)) as Hlast.
    { intros w1 _ Hp Hnf.
      unfold try_except, os_mkdir, reraise_unless_isdir, mbind, M_bind,
        os_path_isdir. rewrite Hp.
      destruct (fs w1 !! (t :: head)) as [[| d] |] eqn:Hl.
      - simpl. rewrite Hl. eauto.
      - now destruct (Hnf d).
      - eauto. }
    destruct (node_at (fs w) head) as [[| d] |] eqn:Hp.
    + erewrite bind_ok
        by (unfold mbind, M_bind, os_path_exists; rewrite Hp; reflexivity).
      apply Hlast; auto.
      intros d Hl. apply (Hfree (t :: head) d); [reflexivity | exact Hl].
    + destruct (Hfree head d); [now apply suffix_cons_r | assumption].
    + destruct (IH w Hwf) as [w1 Hrec].
      { intros q d Hq. apply Hfree. now apply suffix_cons_r. }
      pose proof (makedirs_grows head true w) as (_ & _ & Hq & Hwf1).
      rewrite Hrec in Hq, Hwf1. simpl in Hq, Hwf1.
      erewrite bind_ok
        by (unfold mbind, M_bind, os_path_exists, try_except;
            rewrite Hp; simpl; rewrite Hrec; reflexivity).
      apply Hlast; auto.
      * now apply makedirs_isdir in Hrec.
      * intros d Hl.
        assert (fs w !! (t :: head) = None) as Hnone.
        { destruct (fs w !! (t :: head)) eqn:Hl0; [| reflexivity].
          apply Hwf in Hl0. congruence. }
        destruct (Hq (t :: head)) as [Heq | (_ & Hd & _)]; congruence.
Qed.

(** ** Writing a file *)

Lemma write_file_inv (m m' : gmap path node) (p : path) (d : content) :
  write_file m p d = inr m' ->
  exists (t : string) (parent : path),
    p = t :: parent /\ node_at m parent = Some Dir /\
    m !! p <> Some Dir /\ m' = <[p := File d]> m.
Proof.
  unfold write_file. destruct p as [| t parent]; [discriminate |].
  destruct (node_at m parent) as [[| d0] |] eqn:Hp; try discriminate.
  intros H. exists t, parent.
  destruct (m !! (t :: parent)) as [[| d1] |] eqn:Hl; try discriminate;
    injection H as <-; repeat split; congruence.
Qed.

Lemma write_file_ok (m : gmap path node) (t : string) (parent : path)
    (d : content) :
  node_at m parent = Some Dir -> m !! (t :: parent) <> Some Dir ->
  write_file m (t :: parent) d = inr (<[t :: parent := File d]> m).
Proof.
  intros Hp Hn. unfold write_file. rewrite Hp.
  destruct (m !! (t :: parent)) as [[| d1] |]; congruence.
Qed.

Lemma write_file_wf (m m' : gmap path node) (p : path) (d : content) :
  fs_wf m -> write_file m p d = inr m' -> fs_wf m'.
Proof.
  intros Hwf H. apply write_file_inv in H as (t & parent & -> & Hp & Hn & ->).
  intros t' h' n. rewrite lookup_insert. case_decide as Heq.
  - injection Heq as <- <-. intros _.
    destruct parent as [| a parent]; [reflexivity |].
    simpl in *. rewrite lookup_insert_ne; [assumption |].
    intros Hbad. apply (f_equal length) in Hbad. simpl in Hbad. lia.
  - intros Hl. specialize (Hwf _ _ _ Hl).
    destruct h' as [| a h']; [reflexivity |].
    simpl in *. rewrite lookup_insert. case_decide as Heq2; [| assumption].
    rewrite <- Heq2 in Hwf. contradiction.
Qed.

(** ** What the path operations raise *)

Lemma write_file_error (m : gmap path node) (p : path) (d : content) :
  write_file m p d
  = match write_error m p with
    | Some e => inl e
    | None => inr (<[p := File d]> m)
    end.
Proof.
  unfold write_file, write_error. destruct p as [| t parent]; [reflexivity |].
  destruct (node_at m parent) as [[| d0] |]; try reflexivity.
  destruct (m !! (t :: parent)) as [[| d1] |]; reflexivity.
Qed.

Lemma suffix_cons_cases {A : Type} (q h : list A) (t : A) :
  q `suffix_of` t :: h -> q = t :: h \/ q `suffix_of` h.
Proof.
  intros [k Hk]. destruct k as [| a k]; simpl in Hk.
  - now left.
  - right. injection Hk as _ ->. now exists k.
Qed.

(** In a well-formed tree everything above an entry is a directory. *)
Lemma fs_wf_ancestors (m : gmap path node) (p q : path) (n : node) :
  fs_wf m -> m !! p = Some n -> q `suffix_of` p -> q <> p ->
  node_at m q = Some Dir.
Proof.
  intros Hwf. revert n. induction p as [| t h IH]; intros n Hl Hsuf Hne.
  - apply suffix_nil_inv in Hsuf. congruence.
  - apply suffix_cons_cases in Hsuf as [-> | Hsuf]; [congruence |].
    pose proof (Hwf _ _ _ Hl) as Hh.
    destruct (decide (q = h)) as [-> | Hqh]; [assumption |].
    destruct h as [| a h]; [apply suffix_nil_inv in Hsuf; congruence |].
    simpl in Hh. now apply (IH Dir).
Qed.

(** With a regular file at [name] or above it, [makedirs] raises and
    changes nothing: [FileExistsError] when the file is at [name] itself,
    [NotADirectoryError] when it is above. *)
Lemma makedirs_blocked (name : path) (exist_ok : bool) (w : world) :
  fs_wf (fs w) ->
  (exists (q : path) (d : content),
      q `suffix_of` name /\ node_at (fs w) q = Some (File d)) ->
  makedirs name exist_ok w
  = (w, inl (match node_at (fs w) name with
             | Some (File _) => FileExistsError
             | _ => NotADirectoryError
             end)).
Proof.
  intros Hwf. induction name as [| t head IH]; intros (q & d & Hsuf & Hq).
  - apply suffix_nil_inv in Hsuf. subst q. discriminate.
  - rewrite makedirs_cons.
    change (node_at (fs w) (t :: head)) with (fs w !! (t :: head)).
    destruct (fs w !! (t :: head)) as [[| d0] |] eqn:Hl.
    + (* a directory is there: nothing above it is a file *)
      exfalso. destruct (decide (q = t :: head)) as [-> | Hne].
      * simpl in Hq. congruence.
      * pose proof (fs_wf_ancestors _ _ _ _ Hwf Hl Hsuf Hne). congruence.
    + (* the file is [name] itself *)
      pose proof (Hwf _ _ _ Hl) as Hp.
      unfold reraise_unless_isdir, mbind, M_bind, os_path_exists, try_except,
        os_mkdir, os_path_isdir.
      simpl. rewrite Hp. simpl. rewrite Hp, Hl. simpl. rewrite Hl.
      now rewrite orb_true_r.
    + (* the file is above [name] *)
      assert (q `suffix_of` head) as Hsuf'.
      { apply suffix_cons_cases in Hsuf as [-> | ?]; [| assumption].
        simpl in Hq. congruence. }
      destruct (node_at (fs w) head) as [[| d1] |] eqn:Hp.
      * exfalso. destruct (decide (q = head)) as [-> | Hne]; [congruence |].
        destruct head as [| a head];
          [apply suffix_nil_inv in Hsuf'; congruence |].
        simpl in Hp.
        pose proof (fs_wf_ancestors _ _ _ _ Hwf Hp Hsuf' Hne). congruence.
      * unfold reraise_unless_isdir, mbind, M_bind, os_path_exists,
          try_except, os_mkdir, os_path_isdir.
        simpl. rewrite Hp. simpl. rewrite Hp. simpl. rewrite Hl.
        now rewrite orb_true_r.
      * unfold mbind at 1, M_bind at 1.
        unfold mbind, M_bind, os_path_exists, try_except. simpl.
        rewrite Hp. simpl.
        now rewrite IH by eauto.
Qed.

(** Writing a file elsewhere does not change what opening [p] raises. *)
Lemma write_error_insert_file (m : gmap path node) (q : path) (d : content)
    (t : string) (parent : path) :
  q <> t :: parent -> q <> parent ->
  write_error (<[q := File d]> m) (t :: parent) = write_error m (t :: parent).
Proof.
  intros Hp Hpar. unfold write_error.
  assert (node_at (<[q := File d]> m) parent = node_at m parent) as ->.
  { destruct parent; [reflexivity |]. simpl. now rewrite lookup_insert_ne. }
  now rewrite lookup_insert_ne.
Qed.

Section Proofs.

Variable E : environment.

(** [font] never raises and leaves the world alone. *)
Lemma font_run (sz : Z) (bold : bool) (w : world) :
  font E sz bold w = (w, inr (resolve_font E sz bold)).
Proof.
  unfold font, resolve_font, try_except, ImageFont_truetype.
  destruct (truetype_error E Helvetica sz (if bold then 1 else 0)); reflexivity.
Qed.

(** [center_text] once the text is measured. *)
Lemma center_text_measured (d : ImageDraw) (y : Z) (text : string)
    (fnt : Font) (fill : color) (img_w : Z) (w : world) :
  center_text E d y text fnt fill img_w w
  = (x ← truediv_2 (img_w - text_width E fnt text);
     ImageDraw_text d (x, y) text fnt fill) w.
Proof.
  unfold center_text, ImageDraw_textbbox.
  erewrite bind_ok by reflexivity.
  unfold bbox_right at 1, bbox_left at 1, text_width. cbn [fst snd].
  now rewrite !Z.add_0_r.
Qed.



Lemma center_text_live (d : ImageDraw) (y : Z) (text : string) (fnt : Font)
    (fill : color) (img_w : Z) (w : world) (c : canvas) :
  heap w !! im d = Some c ->
  Z.abs (img_w - text_width E fnt text) <= 2 ^ 53 ->
  center_text E d y text fnt fill img_w w
  = (set_heap (<[im d := add_op (centered E y text fnt fill img_w) c]> (heap w)) w,
     inr tt).
Proof.
  intros H Hn. rewrite center_text_measured.
  unfold mbind, M_bind, truediv_2. rewrite int_truediv_2_exact by assumption.
  now apply update_canvas_live.
Qed.

(** On the surfaces of the script the quotient is exact: they are 1080
    wide, and a text is measured in C [int]s. *)
Lemma script_quotient_exact (fnt : Font) (text : string) :
  Z.abs (1080 - text_width E fnt text) <= 2 ^ 53.
Proof.
  destruct (text_extent_measured E fnt text) as (Hl & _ & Hr & _).
  unfold text_width. revert Hl Hr.
  change (2 ^ 32) with 4294967296. change (2 ^ 53) with 9007199254740992.
  lia.
Qed.

Lemma draw_gold_line_live (d : ImageDraw) (y wd margin : Z) (w : world)
    (c : canvas) :
  heap w !! im d = Some c ->
  draw_gold_line d y wd margin w
  = (set_heap (<[im d := add_op (rule y wd margin) c]> (heap w)) w, inr tt).
Proof. intros H. unfold draw_gold_line, ImageDraw_line. now apply update_canvas_live. Qed.

(** The same calls on the canvas made last, as the blocks use them. *)
Lemma draw_gold_line_newest (y wd margin : Z) (m : gmap path node)
    (o : list string) (l : list canvas) (c : canvas) :
  draw_gold_line (Draw (length l)) y wd margin (World m o (l ++ [c]))
  = (World m o (l ++ [add_op (rule y wd margin) c]), inr tt).
Proof. apply update_canvas_newest. Qed.

Lemma center_text_newest (y : Z) (text : string) (fnt : Font) (fill : color)
    (m : gmap path node) (o : list string) (l : list canvas) (c : canvas) :
  center_text E (Draw (length l)) y text fnt fill 1080 (World m o (l ++ [c]))
  = (World m o (l ++ [add_op (centered E y text fnt fill 1080) c]), inr tt).
Proof.
  rewrite (center_text_live _ _ _ _ _ _ _ c)
    by (apply lookup_snoc || apply script_quotient_exact).
  unfold set_heap. simpl. now rewrite insert_snoc.
Qed.

Lemma Image_save_newest (file format : string) (m : gmap path node)
    (o : list string) (l : list canvas) (c : canvas) :
  Image_save (length l) file format (World m o (l ++ [c]))
  = match write_file m (components file) (Encoded format c) with
    | inl e => (World m o (l ++ [c]), inl e)
    | inr m' => (World m' o (l ++ [c]), inr tt)
    end.
Proof. unfold Image_save. simpl. now rewrite lookup_snoc. Qed.

(** Each block is its closed form. *)
Ltac run_step :=
  first
    [ erewrite bind_ok by apply draw_gold_line_newest
    | erewrite bind_ok by apply center_text_newest
    | erewrite bind_ok by apply font_run
    | erewrite bind_ok by reflexivity ].

Ltac run_block c p :=
  match goal with
  | |- _ ?w = _ => destruct w as [m o l]
  end;
  erewrite bind_ok by reflexivity;
  erewrite bind_ok by reflexivity;
  unfold set_heap; simpl fs; simpl stdout; simpl heap;
  repeat (run_step; cbv zeta);
  unfold mbind, M_bind, emit;
  rewrite Image_save_newest;
  match goal with
  | |- context [write_file _ ?q (Encoded _ ?x)] => change q with p; change x with c
  end;
  simpl fs; simpl stdout; simpl heap;
  match goal with
  | |- context [write_file ?a ?b ?c] => destruct (write_file a b c)
  end; reflexivity.

Lemma banner_block_emit (w : world) :
  banner_block E w = emit (banner_canvas E) banner_path banner_line w.
Proof. unfold banner_block. run_block (banner_canvas E) banner_path. Qed.

Lemma idle_block_emit (w : world) :
  idle_block E w = emit (idle_canvas E) idle_path idle_line w.
Proof. unfold idle_block. run_block (idle_canvas E) idle_path. Qed.

Lemma side_block_emit (w : world) :
  side_block E w = emit (side_canvas E) side_path side_line w.
Proof. unfold side_block. run_block (side_canvas E) side_path. Qed.

(** ** The whole run *)

Lemma main_closed (w : world) :
  main E w =
  (makedirs OUT_path true;;
   emit (banner_canvas E) banner_path banner_line;;
   emit (idle_canvas E) idle_path idle_line;;
   emit (side_canvas E) side_path side_line;;
   print summary_line) w.
Proof.
  unfold main, os_makedirs. change (components OUT) with OUT_path.
  unfold mbind, M_bind.
  destruct (makedirs OUT_path true w) as [w1 [e | []]]; [reflexivity |].
  rewrite banner_block_emit.
  destruct (emit _ banner_path _ w1) as [w2 [e | []]]; [reflexivity |].
  rewrite idle_block_emit.
  destruct (emit _ idle_path _ w2) as [w3 [e | []]]; [reflexivity |].
  rewrite side_block_emit. reflexivity.
Qed.

#[local] Arguments write_file : simpl never.

(** The five ways a run can end: [makedirs] raised, one of the three
    [save] raised, or the run returned. *)
Ltac run_cases w :=
  rewrite (main_closed w); unfold mbind, M_bind, emit, print;
  let Hmk := fresh "Hmk" in
  let Ho := fresh "Ho" in
  let Hh := fresh "Hh" in
  let Hq := fresh "Hq" in
  let Hgw := fresh "Hgw" in
  pose proof (makedirs_grows OUT_path true w) as (Ho & Hh & Hq & Hgw);
  destruct (makedirs OUT_path true w) as [w1 [e | []]] eqn:Hmk;
  simpl in Ho, Hh, Hq, Hgw;
  [ simpl
  | destruct (write_file (fs w1) banner_path (Encoded "PNG" (banner_canvas E)))
      as [e | m1] eqn:Hw1; simpl;
    [ | destruct (write_file m1 idle_path (Encoded "PNG" (idle_canvas E)))
          as [e | m2] eqn:Hw2; simpl;
        [ | destruct (write_file m2 side_path (Encoded "PNG" (side_canvas E)))
              as [e | m3] eqn:Hw3; simpl ] ] ];
  rewrite ?Ho, ?Hh, <- ?app_assoc; simpl.

Lemma main_produced (w : world) :
  produced w (main E w).1 `prefix_of` canvases E.
Proof.
  unfold produced, canvases. run_cases w.
  - rewrite drop_ge by lia. now eexists.
  - rewrite drop_app_length. now eexists.
  - rewrite drop_app_length. now eexists.
  - rewrite drop_app_length. now eexists.
  - rewrite drop_app_length. now eexists.
Qed.

Lemma main_printed (w : world) :
  printed w (main E w).1 `prefix_of` lines.
Proof.
  unfold printed, lines. run_cases w.
  - rewrite drop_ge by lia. now eexists.
  - rewrite drop_ge by lia. now eexists.
  - rewrite drop_app_length. now eexists.
  - rewrite drop_app_length. now eexists.
  - rewrite drop_app_length. now eexists.
Qed.

Lemma paths_distinct :
  banner_path <> idle_path /\ banner_path <> side_path /\
  idle_path <> side_path /\
  banner_path <> OUT_path /\ idle_path <> OUT_path /\ side_path <> OUT_path.
Proof. repeat split; discriminate. Qed.

Lemma saved_lookup (m : gmap path node) :
  holds (saved E m) banner_path (banner_canvas E) /\
  holds (saved E m) idle_path (idle_canvas E) /\
  holds (saved E m) side_path (side_canvas E) /\
  node_at (saved E m) OUT_path = node_at m OUT_path.
Proof.
  destruct paths_distinct as (H1 & H2 & H3 & H4 & H5 & H6).
  unfold holds, saved. repeat split.
  - rewrite lookup_insert_ne, lookup_insert_ne by congruence.
    apply lookup_insert_eq.
  - rewrite lookup_insert_ne by congruence. apply lookup_insert_eq.
  - apply lookup_insert_eq.
  - change (node_at ?x OUT_path) with (x !! OUT_path).
    now rewrite !lookup_insert_ne by congruence.
Qed.

(** A run returns exactly when [makedirs] does and leaves a tree the
    three files can be written to; the world it ends in is then known. *)
Lemma main_result (w u : world) :
  makedirs OUT_path true w = (u, inr tt) -> writable (fs u) ->
  main E w
  = (World (saved E (fs u)) (stdout w ++ lines) (heap w ++ canvases E),
     inr tt).
Proof.
  intros Hmk0 (Hd & Hb & Hi & Hs).
  destruct paths_distinct as (H1 & H2 & H3 & H4 & H5 & H6).
  assert (write_file (fs u) banner_path (Encoded "PNG" (banner_canvas E))
          = inr (<[banner_path := File (Encoded "PNG" (banner_canvas E))]> (fs u)))
    as Hw1' by now apply write_file_ok.
  assert (forall m c, node_at m OUT_path = Some Dir -> m !! idle_path <> Some Dir ->
          write_file m idle_path (Encoded "PNG" c)
          = inr (<[idle_path := File (Encoded "PNG" c)]> m))
    as Hw2' by (intros; now apply write_file_ok).
  assert (forall m c, node_at m OUT_path = Some Dir -> m !! side_path <> Some Dir ->
          write_file m side_path (Encoded "PNG" c)
          = inr (<[side_path := File (Encoded "PNG" c)]> m))
    as Hw3' by (intros; now apply write_file_ok).
  assert (forall (m : gmap path node) (q : path) (n : node),
            q <> OUT_path -> node_at m OUT_path = Some Dir ->
            node_at (<[q := n]> m) OUT_path = Some Dir) as Hkeep.
  { intros m q n Hq. change (node_at ?x OUT_path) with (x !! OUT_path).
    now rewrite lookup_insert_ne. }
  run_cases w; try congruence;
    assert (w1 = u) by congruence; subst w1;
    rewrite Hw1' in Hw1; injection Hw1 as <-;
    (rewrite Hw2' in Hw2;
     [| now apply Hkeep | now rewrite lookup_insert_ne by congruence]);
    try discriminate; injection Hw2 as <-;
    (rewrite Hw3' in Hw3;
     [| now repeat apply Hkeep | now rewrite !lookup_insert_ne by congruence]);
    try discriminate; injection Hw3 as <-.
  reflexivity.
Qed.

Lemma main_returns_inv (w w' : world) :
  main E w = (w', inr tt) ->
  exists u : world,
    makedirs OUT_path true w = (u, inr tt) /\ writable (fs u) /\
    w' = World (saved E (fs u)) (stdout w ++ lines) (heap w ++ canvases E).
Proof.
  intros H.
  assert (exists u, makedirs OUT_path true w = (u, inr tt) /\ writable (fs u))
    as (u & Hmk0 & Hwr).
  { destruct paths_distinct as (H1 & H2 & H3 & H4 & H5 & H6).
    revert H. run_cases w; try discriminate. intros _.
    exists w1. split; [reflexivity |].
    apply write_file_inv in Hw1 as (t1 & p1 & Hp1 & Hd1 & Hn1 & ->).
    apply write_file_inv in Hw2 as (t2 & p2 & Hp2 & Hd2 & Hn2 & ->).
    apply write_file_inv in Hw3 as (t3 & p3 & Hp3 & Hd3 & Hn3 & ->).
    injection Hp1 as _ <-.
    rewrite lookup_insert_ne in Hn2 by assumption.
    rewrite !lookup_insert_ne in Hn3 by assumption.
    repeat split; assumption. }
  exists u. split; [assumption |]. split; [assumption |].
  rewrite (main_result w u Hmk0 Hwr) in H. now injection H as <-.
Qed.

(** A run keeps the tree well formed, however it ends. *)
Lemma main_wf (w : world) : fs_wf (fs w) -> fs_wf (fs (main E w).1).
Proof.
  intros Hwf. run_cases w; eauto using write_file_wf.
Qed.

Lemma saved_idem (m : gmap path node) : saved E (saved E m) = saved E m.
Proof.
  unfold saved. apply map_eq. intros q.
  rewrite !lookup_insert. repeat case_decide; reflexivity.
Qed.

Lemma saved_writable (m : gmap path node) :
  node_at m OUT_path = Some Dir -> writable (saved E m).
Proof.
  intros Hd. destruct (saved_lookup m) as (Hb & Hi & Hs & Ho).
  unfold holds in *. repeat split; congruence.
Qed.

Lemma main_completes (w : world) :
  admits (fs w) -> exists w', main E w = (w', inr tt).
Proof.
  intros (Hwf & Hfree & Hb & Hi & Hs).
  destruct (makedirs_unobstructed OUT_path w Hwf Hfree) as [u Hmk0].
  pose proof (makedirs_grows OUT_path true w) as (_ & _ & Hq & _).
  rewrite Hmk0 in Hq. simpl in Hq.
  assert (forall q : path, length q = 8%nat -> fs w !! q <> Some Dir ->
                           fs u !! q <> Some Dir) as Hkeep.
  { intros q Hlen Hn. destruct (Hq q) as [-> | (_ & _ & Hsuf)]; [assumption |].
    apply suffix_length in Hsuf. simpl in Hsuf. lia. }
  eexists. apply (main_result w u Hmk0).
  repeat split; [now apply makedirs_isdir in Hmk0 | now apply Hkeep ..].
Qed.

(** A confirmation line is printed only once its image is in its file,
    however the run ends. *)
Lemma main_printed_saved (w : world) :
  (banner_line ∈ printed w (main E w).1 ->
   holds (fs (main E w).1) banner_path (banner_canvas E)) /\
  (idle_line ∈ printed w (main E w).1 ->
   holds (fs (main E w).1) idle_path (idle_canvas E)) /\
  (side_line ∈ printed w (main E w).1 ->
   holds (fs (main E w).1) side_path (side_canvas E)).
Proof.
  destruct paths_distinct as (H1 & H2 & H3 & _).
  unfold printed, holds. run_cases w;
    rewrite ?drop_app_length, ?drop_ge by lia;
    repeat match goal with
      | H : write_file _ _ _ = inr _ |- _ =>
          apply write_file_inv in H as (? & ? & _ & _ & _ & ->)
      end;
    repeat split; intros Hin;
    first
      [ rewrite ?lookup_insert_ne by congruence; apply lookup_insert_eq
      | exfalso;
        repeat (apply elem_of_cons in Hin as [Hin | Hin]; [discriminate Hin |]);
        now apply elem_of_nil in Hin ].
Qed.

#[local] Arguments write_error : simpl never.

(** The shape of the tree after the earlier saves is the shape before
    them, as far as the later saves can tell. *)
Lemma write_error_after_banner (m : gmap path node) (d : content) :
  write_error (<[banner_path := File d]> m) idle_path = write_error m idle_path /\
  write_error (<[banner_path := File d]> m) side_path = write_error m side_path.
Proof. split; now apply write_error_insert_file. Qed.

Lemma write_error_after_idle (m : gmap path node) (d : content) :
  write_error (<[idle_path := File d]> m) side_path = write_error m side_path.
Proof. now apply write_error_insert_file. Qed.

(** Reading the three [save] outcomes of a case off the tree [makedirs]
    left. *)
Ltac read_saves :=
  repeat match goal with
    | H : write_file _ _ _ = _ |- _ =>
        rewrite write_file_error in H;
        match type of H with
        | match write_error ?m ?p with _ => _ end = _ =>
            let He := fresh "He" in
            destruct (write_error m p) eqn:He;
            try discriminate H; injection H as <-
        end
    end;
  repeat match goal with
    | H : write_error _ _ = _ |- _ =>
        rewrite ?write_error_after_idle,
                ?(proj1 (write_error_after_banner _ _)),
                ?(proj2 (write_error_after_banner _ _)) in H;
        rewrite ?H; clear H
    end.

(** How a run ends and what it prints can be read off the tree: neither
    depends on the fonts or on how text measures. *)
Lemma main_outcome (w : world) :
  (main E w).2 = run_outcome w /\ printed w (main E w).1 = run_printed w.
Proof.
  unfold run_outcome, run_printed, printed. run_cases w; read_saves;
    rewrite ?drop_app_length, ?drop_ge by lia; split; reflexivity.
Qed.

(** A run that raises has not printed the summary. *)
Lemma main_printed_raised (w w' : world) (e : exception) :
  main E w = (w', inl e) ->
  printed w w' `prefix_of` [banner_line; idle_line; side_line].
Proof.
  intros H. destruct (main_outcome w) as [Ho Hp]. rewrite H in Ho, Hp.
  simpl in Ho, Hp. rewrite Hp. unfold run_outcome, run_printed in *.
  destruct (makedirs OUT_path true w) as [u [e0 | []]];
    [now eexists |].
  destruct (write_error (fs u) banner_path); [now eexists |].
  destruct (write_error (fs u) idle_path); [now eexists |].
  destruct (write_error (fs u) side_path); [now eexists | discriminate].
Qed.

(** Outside the three image files a run changes nothing that was there:
    all it adds is directories on the way to the output directory. *)
Lemma main_elsewhere (w : world) (q : path) :
  q <> banner_path -> q <> idle_path -> q <> side_path ->
  fs (main E w).1 !! q = fs w !! q \/
  (fs w !! q = None /\ fs (main E w).1 !! q = Some Dir /\
   q `suffix_of` OUT_path).
Proof.
  intros Hb Hi Hs. run_cases w;
    repeat match goal with
      | H : write_file _ _ _ = inr _ |- _ =>
          apply write_file_inv in H as (? & ? & _ & _ & _ & ->)
      end;
    rewrite ?lookup_insert_ne by congruence; apply Hq.
Qed.

(** A run only adds to the terminal and to the store of images. *)
Lemma main_appends (w : world) :
  stdout w `prefix_of` stdout (main E w).1 /\
  heap w `prefix_of` heap (main E w).1.
Proof.
  run_cases w; split; first [now eexists | rewrite <- ?Ho, <- ?Hh; reflexivity].
Qed.

End Proofs.

(** A second run on the world a first one left, whatever fonts it finds:
    it returns, and the tree differs only by the three files. *)
Lemma main_rerun (E E' : environment) (w w' : world) :
  fs_wf (fs w) -> main E w = (w', inr tt) ->
  main E' w'
  = (World (saved E' (fs w')) (stdout w' ++ lines) (heap w' ++ canvases E'),
     inr tt).
Proof.
  intros Hwf H. pose proof (main_wf E w Hwf) as Hwf'. rewrite H in Hwf'.
  apply main_returns_inv in H as (u & Hmk0 & Hwr & ->). simpl in Hwf' |- *.
  pose proof (saved_writable E (fs u) (proj1 Hwr)) as Hwr'.
  match goal with
  | |- main E' ?W = _ => apply (main_result E' W W)
  end; [apply makedirs_existing |]; simpl;
    [assumption | apply Hwr' | assumption].
Qed.

(** ** The script on sample worlds *)

Example components_OUT :
  components OUT
  = ["ads"; "public"; "PoolCue-v2"; "claude projects"; "Desktop";
     "frankgranato"; "Users"].
Proof. reflexivity. Qed.

Example banner_file_name :
  os_path_join OUT "ad-banner-1080x90.png"
  = "/Users/frankgranato/Desktop/claude projects/PoolCue-v2/public/ads/ad-banner-1080x90.png".
Proof. reflexivity. Qed.

Example font_present : font fonts_present 22 true w0
                       = (w0, inr (FreeTypeFont Helvetica 22 1)).
Proof. reflexivity. Qed.

Example font_absent : font fonts_absent 22 true w0 = (w0, inr DefaultFont).
Proof. reflexivity. Qed.

(** The bare [except] of [font] catches an interrupt as well. *)
Example font_interrupted :
  font fonts_interrupted 22 true w0 = (w0, inr DefaultFont).
Proof. reflexivity. Qed.

(** [(2 ** 53 + 1) / 2] is [4503599627370496.0], and [10 ** 400 / 2]
    raises. *)
Example truediv_2_rounds :
  int_truediv_2 (2 ^ 53 + 1) = inr (inject_Z 9007199254740992 / 2)%Q.
Proof. vm_compute. reflexivity. Qed.

Example truediv_2_overflows : int_truediv_2 (10 ^ 400) = inl OverflowError.
Proof. vm_compute. reflexivity. Qed.

(** "YOUR AD HERE" is twelve bytes, 120 units in the sample measure: it is
    drawn at (1080 - 120) / 2 = 480. *)
Example banner_first_text :
  ops (banner_canvas fonts_present) !! 1%nat
  = Some (OpText ((960 # 2)%Q, 20) "YOUR AD HERE"
            (FreeTypeFont Helvetica 22 1) GOLD).
Proof. reflexivity. Qed.

Example run_on_empty_tree_prints :
  stdout (main fonts_present w0).1
  = [ "✅ Banner 1080x90"; "✅ Idle 1080x240"; "✅ Side 1080x120";
      String "010"%char
        "All ads saved to /Users/frankgranato/Desktop/claude projects/PoolCue-v2/public/ads" ].
Proof. vm_compute. reflexivity. Qed.

(** Where [/Users] is a regular file the run is over at [os.makedirs],
    with nothing printed and nothing drawn. *)
Example run_obstructed :
  let w := World {[ ["Users"] := File (Bytes "") ]} [] [] in
  (main fonts_present w).2 = inl NotADirectoryError /\
  stdout (main fonts_present w).1 = [] /\
  heap (main fonts_present w).1 = [].
Proof. vm_compute. repeat split. Qed.

(** Where a directory has the name of the second image, the run is over
    at the second [save]: one file written, one line printed. *)
Example run_second_save_raises :
  let w := World (<[idle_path := Dir]> (fs w_ready)) [] [] in
  (main fonts_present w).2 = inl IsADirectoryError /\
  stdout (main fonts_present w).1 = ["✅ Banner 1080x90"] /\
  length (heap (main fonts_present w).1) = 2%nat.
Proof. vm_compute. repeat split. Qed.

(** * The properties the specification states *)

(** ** C1: image dimensions *)

Lemma canvases_sizes (E : environment) :
  map size (canvases E) = [(1080, 90); (1080, 240); (1080, 120)].
Proof. reflexivity. Qed.

Lemma main_holds (E : environment) (w w' : world) :
  main E w = (w', inr tt) ->
  holds (fs w') banner_path (banner_canvas E) /\
  holds (fs w') idle_path (idle_canvas E) /\
  holds (fs w') side_path (side_canvas E) /\
  node_at (fs w') OUT_path = Some Dir /\
  printed w w' = lines /\
  produced w w' = canvases E.
Proof.
  intros H. apply main_returns_inv in H as (u & _ & Hwr & ->).
  destruct (saved_lookup E (fs u)) as (Hb & Hi & Hs & Ho).
  unfold printed, produced. cbn [fs stdout heap]. rewrite !drop_app_length.
  repeat split; try assumption. rewrite Ho. apply Hwr.
Qed.

(** C1. Whatever fonts the run finds, the canvases it makes have, in
    order, the sizes 1080 x 90 (banner), 1080 x 240 (idle) and
    1080 x 120 (side), and none has another size; when the run returns,
    each of the three files holds the image of its size. *)
Theorem C1_image_dimensions (E : environment) (w : world) :
  map size (produced w (main E w).1)
    `prefix_of` [(1080, 90); (1080, 240); (1080, 120)] /\
  (forall w' : world,
      main E w = (w', inr tt) ->
      exists b i s : canvas,
        holds (fs w') banner_path b /\ size b = (1080, 90) /\
        holds (fs w') idle_path i /\ size i = (1080, 240) /\
        holds (fs w') side_path s /\ size s = (1080, 120)).
Proof.
  split.
  - destruct (main_produced E w) as [k Hk].
    exists (map size k). rewrite <- (canvases_sizes E), Hk. apply map_app.
  - intros w' H. apply main_holds in H as (Hb & Hi & Hs & _).
    exists (banner_canvas E), (idle_canvas E), (side_canvas E).
    repeat split; assumption.
Qed.

(** ** C2: centred text *)


(** ** C3: the font fallback *)

Lemma resolve_font_absent (E : environment) (sz : Z) (bold : bool) :
  (forall (sz : Z) (idx : Z), truetype_error E Helvetica sz idx <> None) ->
  resolve_font E sz bold = DefaultFont.
Proof.
  intros Habs. unfold resolve_font.
  destruct (truetype_error E Helvetica sz (if bold then 1 else 0)) eqn:Hl;
    [reflexivity | now destruct (Habs _ _ Hl)].
Qed.

Lemma canvases_fonts_absent (E : environment) :
  (forall (sz : Z) (idx : Z), truetype_error E Helvetica sz idx <> None) ->
  Forall (fun c : canvas => Forall (eq DefaultFont) (fonts_of c)) (canvases E).
Proof.
  intros Habs. unfold canvases, banner_canvas, idle_canvas, side_canvas, fonts_of.
  simpl. rewrite !(resolve_font_absent E) by assumption.
  repeat constructor.
Qed.

(** C3. Whenever [ImageFont.truetype] raises, whatever it raises, [font]
    returns the built-in default font and raises nothing.  With the font
    file out of reach the run still returns: on every tree that admits the
    output, and wherever a run with any other fonts returns; the three
    images are then set in the default font throughout. *)
Theorem C3_font_fallback (E : environment) :
  (forall (sz : Z) (bold : bool) (e : exception) (w : world),
      truetype_error E Helvetica sz (if bold then 1 else 0) = Some e ->
      font E sz bold w = (w, inr DefaultFont)) /\
  ((forall (sz : Z) (idx : Z), truetype_error E Helvetica sz idx <> None) ->
   (forall w : world,
       admits (fs w) -> exists w' : world, main E w = (w', inr tt)) /\
   (forall (E' : environment) (w u : world),
       main E' w = (u, inr tt) -> exists w' : world, main E w = (w', inr tt)) /\
   (forall w w' : world,
       main E w = (w', inr tt) ->
       exists b i s : canvas,
         holds (fs w') banner_path b /\ holds (fs w') idle_path i /\
         holds (fs w') side_path s /\
         Forall (fun c : canvas => Forall (eq DefaultFont) (fonts_of c))
           [b; i; s])).
Proof.
  split.
  - intros sz bold e w Hfail. rewrite font_run. unfold resolve_font.
    now rewrite Hfail.
  - intros Habs. split; [| split].
    + intros w. apply main_completes.
    + intros E' w u H. apply main_returns_inv in H as (v & Hmk & Hwr & _).
      eexists. now apply (main_result E w v).
    + intros w w' H. apply main_holds in H as (Hb & Hi & Hs & _).
      exists (banner_canvas E), (idle_canvas E), (side_canvas E).
      repeat split; try assumption. now apply canvases_fonts_absent.
Qed.

(** ** C4: what each block renders *)

Lemma emit_returns_inv (c : canvas) (p : path) (msg : string) (w w' : world) :
  emit c p msg w = (w', inr tt) ->
  produced w w' = [c] /\ holds (fs w') p c /\ printed w w' = [msg].
Proof.
  unfold emit, produced, printed, holds.
  destruct (write_file (fs w) p (Encoded "PNG" c)) as [e | m] eqn:Hw;
    [discriminate |].
  intros H. injection H as <-. cbn [fs stdout heap].
  rewrite !drop_app_length.
  apply write_file_inv in Hw as (t & parent & _ & _ & _ & ->).
  repeat split. apply lookup_insert_eq.
Qed.

(** C4, as the code has it.  A block that returns has made one canvas with
    the background colour, saved it under its fixed name and printed its
    confirmation line; the banner has one rule and two centred texts, the
    idle image two rules and four centred texts (three lines of message
    and the small POOL CUE mark), the side image two rules and two
    centred texts. *)
Theorem C4_blocks_render (E : environment) :
  (forall w w' : world,
      banner_block E w = (w', inr tt) ->
      exists c : canvas,
        produced w w' = [c] /\ holds (fs w') banner_path c /\
        printed w w' = [banner_line] /\ background c = BG /\
        rule_count c = 1%nat /\ text_count c = 2%nat) /\
  (forall w w' : world,
      idle_block E w = (w', inr tt) ->
      exists c : canvas,
        produced w w' = [c] /\ holds (fs w') idle_path c /\
        printed w w' = [idle_line] /\ background c = BG /\
        rule_count c = 2%nat /\ text_count c = 4%nat) /\
  (forall w w' : world,
      side_block E w = (w', inr tt) ->
      exists c : canvas,
        produced w w' = [c] /\ holds (fs w') side_path c /\
        printed w w' = [side_line] /\ background c = BG /\
        rule_count c = 2%nat /\ text_count c = 2%nat).
Proof.
  repeat split; intros w w' H.
  - rewrite banner_block_emit in H. apply emit_returns_inv in H as (? & ? & ?).
    exists (banner_canvas E). repeat split; assumption.
  - rewrite idle_block_emit in H. apply emit_returns_inv in H as (? & ? & ?).
    exists (idle_canvas E). repeat split; assumption.
  - rewrite side_block_emit in H. apply emit_returns_inv in H as (? & ? & ?).
    exists (side_canvas E). repeat split; assumption.
Qed.

(** ** C5: standard output *)

(** C5, as the code has it.  A run that returns has made four [print]
    calls, the three confirmations and the summary, and they put five
    lines on standard output: the three confirmation lines, an empty line
    (the summary is printed with a newline before it) and the summary
    line.  A run that an exception ends has printed an initial part of the
    three confirmation lines and no summary.  In every run a confirmation
    line is printed only once its image is in its file. *)
Theorem C5_standard_output (E : environment) (w : world) :
  printed w (main E w).1
    `prefix_of` [banner_line; idle_line; side_line; summary_line] /\
  (banner_line ∈ printed w (main E w).1 ->
   holds (fs (main E w).1) banner_path (banner_canvas E)) /\
  (idle_line ∈ printed w (main E w).1 ->
   holds (fs (main E w).1) idle_path (idle_canvas E)) /\
  (side_line ∈ printed w (main E w).1 ->
   holds (fs (main E w).1) side_path (side_canvas E)) /\
  (forall w' : world,
      main E w = (w', inr tt) ->
      printed w w' = [banner_line; idle_line; side_line; summary_line] /\
      text_lines (output_text (printed w w'))
      = [banner_line; idle_line; side_line; EmptyString;
         "All ads saved to " +:+ OUT]) /\
  (forall (w' : world) (e : exception),
      main E w = (w', inl e) ->
      printed w w' `prefix_of` [banner_line; idle_line; side_line]).
Proof.
  split; [apply main_printed |].
  destruct (main_printed_saved E w) as (Hb & Hi & Hs).
  do 3 (split; [assumption |]). split.
  - intros w' H. apply main_holds in H as (_ & _ & _ & _ & -> & _).
    split; [reflexivity |]. vm_compute. reflexivity.
  - intros w' e H. now apply (main_printed_raised E w w' e).
Qed.

(** ** C6: the output directory *)

(** C6. The run starts with [os.makedirs]: if that raises, the run is
    over with the same exception.  On a well-formed tree: if no regular
    file is in the way, [os.makedirs] makes the output directory, adding
    nothing but directories on the way to it; if the directory is already
    there, [os.makedirs] returns and changes nothing.  After a run that
    returned the directory is there, and a further run, with whatever
    fonts, returns as well, having written the same three files and
    touched nothing else; with the same fonts it leaves the tree as it
    was. *)
Theorem C6_output_directory (E : environment) (w : world) :
  fs_wf (fs w) ->
  (forall (u : world) (e : exception),
      os_makedirs OUT true w = (u, inl e) -> main E w = (u, inl e)) /\
  (unobstructed (fs w) OUT_path ->
   exists u : world,
     os_makedirs OUT true w = (u, inr tt) /\
     node_at (fs u) OUT_path = Some Dir /\ grows OUT_path w u) /\
  (node_at (fs w) OUT_path = Some Dir ->
   os_makedirs OUT true w = (w, inr tt)) /\
  (forall w' : world,
      main E w = (w', inr tt) ->
      node_at (fs w') OUT_path = Some Dir /\
      (forall E' : environment,
          main E' w'
          = (World (saved E' (fs w')) (stdout w' ++ lines)
               (heap w' ++ canvases E'), inr tt)) /\
      main E w'
      = (World (fs w') (stdout w' ++ lines) (heap w' ++ canvases E), inr tt)).
Proof.
  intros Hwf. split.
  { intros u e H. unfold main. now apply bind_raise. }
  unfold os_makedirs. change (components OUT) with OUT_path.
  split; [| split].
  - intros Hfree.
    destruct (makedirs_unobstructed OUT_path w Hwf Hfree) as [u Hmk].
    exists u. split; [assumption |]. split.
    + now apply makedirs_isdir in Hmk.
    + pose proof (makedirs_grows OUT_path true w) as Hg. now rewrite Hmk in Hg.
  - now apply makedirs_existing.
  - intros w' H. split; [| split].
    + now apply main_holds in H.
    + intros E'. now apply (main_rerun E E' w w').
    + rewrite (main_rerun E E w w' Hwf H).
      apply main_returns_inv in H as (u & _ & _ & ->). cbn [fs].
      now rewrite saved_idem.
Qed.

(** ** C7: the rule *)

(** C7. On a live drawing context, for every ordinate [y], width [w] and
    margin [m], [draw_gold_line] issues one [line] call from [(m, y)] to
    [(w - m, y)], one pixel wide, in the colour (30, 30, 30); nothing
    else changes. *)
Theorem C7_draw_gold_line (d : ImageDraw) (y w m : Z) (s : world)
    (c : canvas) :
  heap s !! im d = Some c ->
  draw_gold_line d y w m s
  = (set_heap
       (<[im d := add_op (OpLine [(m, y); (w - m, y)] (30, 30, 30) 1) c]>
          (heap s)) s,
     inr tt).
Proof.
  intros Hlive. rewrite (draw_gold_line_live d y w m s c Hlive).
  reflexivity.
Qed.

(** ** C8: text wider than the surface *)


(** ** C9: one width, one background *)

Lemma centered_centred_on (E : environment) (c : canvas) (y : Z)
    (text : string) (fnt : Font) (fill : color) :
  centred_on E c (centered E y text fnt fill (width c)).
Proof.
  unfold centred_on, centered, Z.sub.
  rewrite inject_Z_plus, inject_Z_opp. reflexivity.
Qed.

(** C9. Every canvas a run makes is 1080 wide on the background
    (10, 10, 10), and every text on it is centred on that width: its
    abscissa is (width of the canvas - width of the text) / 2.  A run that
    returns has made three canvases. *)
Theorem C9_canvas_width_invariant (E : environment) (w : world) :
  Forall
    (fun c : canvas =>
       width c = 1080 /\ background c = (10, 10, 10) /\
       Forall (centred_on E c) (ops c))
    (produced w (main E w).1) /\
  (forall w' : world,
      main E w = (w', inr tt) -> length (produced w w') = 3%nat).
Proof.
  split.
  - destruct (main_produced E w) as [k Hk].
    assert (Forall
              (fun c : canvas =>
                 width c = 1080 /\ background c = (10, 10, 10) /\
                 Forall (centred_on E c) (ops c))
              (canvases E)) as Hall.
    { repeat constructor; apply (centered_centred_on E). }
    rewrite Hk in Hall. now apply Forall_app in Hall.
  - intros w' H. apply main_holds in H as (_ & _ & _ & _ & _ & ->).
    reflexivity.
Qed.

(** ** C10: determinism *)



(** * Further properties of the script *)

(** ** How a run can end *)

(** X2. Whether a run returns, what it raises otherwise, and what it
    prints do not depend on the fonts found nor on how text measures:
    two runs from the same world agree on all three. *)
Theorem X2_outcome_independent_of_fonts (E E' : environment) (w : world) :
  (main E w).2 = (main E' w).2 /\
  printed w (main E w).1 = printed w (main E' w).1.
Proof.
  destruct (main_outcome E w) as [-> ->].
  destruct (main_outcome E' w) as [-> ->].
  split; reflexivity.
Qed.

(** X3. Outside the three image files a run, however it ends, leaves
    every entry of the tree as it was; all it adds is directories on the
    way to the output directory. *)
Theorem X3_other_files_untouched (E : environment) (w : world) (q : path) :
  q <> banner_path -> q <> idle_path -> q <> side_path ->
  fs (main E w).1 !! q = fs w !! q \/
  (fs w !! q = None /\ fs (main E w).1 !! q = Some Dir /\
   q `suffix_of` OUT_path).
Proof. intros Hb Hi Hs. now apply main_elsewhere. Qed.

(** X4. A run, however it ends, keeps what was on the terminal and every
    image that was in the store: it only adds after them. *)
Theorem X4_run_only_appends (E : environment) (w : world) :
  stdout w `prefix_of` stdout (main E w).1 /\
  heap w `prefix_of` heap (main E w).1.
Proof. destruct (main_appends E w) as [Ho Hh]. split; assumption. Qed.

(** X5. The summary line is printed exactly by the runs that return,
    and then each of the three files holds its image: "All ads saved" is
    never printed over a failed save. *)
Theorem X5_summary_truthful (E : environment) (w : world) :
  (summary_line ∈ printed w (main E w).1 <-> (main E w).2 = inr tt) /\
  (summary_line ∈ printed w (main E w).1 ->
   holds (fs (main E w).1) banner_path (banner_canvas E) /\
   holds (fs (main E w).1) idle_path (idle_canvas E) /\
   holds (fs (main E w).1) side_path (side_canvas E)).
Proof.
  assert (summary_line ∈ printed w (main E w).1 <-> (main E w).2 = inr tt)
    as Hiff.
  { destruct (main_outcome E w) as [-> ->]. unfold run_outcome, run_printed.
    destruct (makedirs OUT_path true w) as [u [e | []]].
    - split; [intros Hin; now apply elem_of_nil in Hin | discriminate].
    - destruct (write_error (fs u) banner_path);
        [split; [intros Hin; now apply elem_of_nil in Hin | discriminate] |].
      destruct (write_error (fs u) idle_path);
        [split; [| discriminate] |].
      { intros Hin.
        repeat (apply elem_of_cons in Hin as [Hin | Hin]; [discriminate Hin |]).
        now apply elem_of_nil in Hin. }
      destruct (write_error (fs u) side_path); [split; [| discriminate] |].
      { intros Hin.
        repeat (apply elem_of_cons in Hin as [Hin | Hin]; [discriminate Hin |]).
        now apply elem_of_nil in Hin. }
      split; [reflexivity |]. intros _. unfold lines.
      do 3 (apply elem_of_cons; right). apply elem_of_cons. now left. }
  split; [exact Hiff |].
  intros Hin. apply Hiff, returns_snd, main_holds in Hin.
  tauto.
Qed.

(** X6. A run returns only on a tree that admits the output: if a run
    from a well-formed tree has returned, then no regular file was at the
    output directory or above it, and no directory had the name of one of
    the three images. *)
Theorem X6_returns_only_if_admits (E : environment) (w w' : world) :
  fs_wf (fs w) -> main E w = (w', inr tt) -> admits (fs w).
Proof.
  intros Hwf H. apply main_returns_inv in H as (u & Hmk & Hwr & _).
  split; [assumption |]. split.
  - intros q d Hsuf Hq.
    rewrite (makedirs_blocked OUT_path true w Hwf) in Hmk by eauto.
    discriminate.
  - pose proof (makedirs_grows OUT_path true w) as (_ & _ & Hq & _).
    rewrite Hmk in Hq. simpl in Hq.
    destruct Hwr as (_ & Hb & Hi & Hs).
    repeat split; intros Hdir;
      match type of Hdir with
      | fs w !! ?p = _ =>
          destruct (Hq p) as [Heq | (Hnone & _)]; congruence
      end.
Qed.

(** X7. On a well-formed tree with a regular file at the output
    directory or above it, the run is over at [os.makedirs] with the
    world as it was: [FileExistsError] when the file has the name of the
    output directory itself, [NotADirectoryError] when it is above. *)
Theorem X7_obstructed_run (E : environment) (w : world) (q : path)
    (d : content) :
  fs_wf (fs w) -> q `suffix_of` OUT_path -> node_at (fs w) q = Some (File d) ->
  main E w
  = (w, inl (match node_at (fs w) OUT_path with
             | Some (File _) => FileExistsError
             | _ => NotADirectoryError
             end)).
Proof.
  intros Hwf Hsuf Hq. unfold main. apply bind_raise.
  unfold os_makedirs. change (components OUT) with OUT_path.
  apply makedirs_blocked; eauto.
Qed.

Lemma three_paths_after_makedirs (w u : world) :
  makedirs OUT_path true w = (u, inr tt) ->
  fs u !! banner_path = fs w !! banner_path /\
  fs u !! idle_path = fs w !! idle_path /\
  fs u !! side_path = fs w !! side_path.
Proof.
  intros Hmk. pose proof (makedirs_grows OUT_path true w) as (_ & _ & Hq & _).
  rewrite Hmk in Hq. simpl in Hq.
  repeat split;
    match goal with
    | |- fs u !! ?p = _ =>
        destruct (Hq p) as [Heq | (_ & _ & Hsuf)]; [exact Heq |];
        apply suffix_length in Hsuf; simpl in Hsuf; lia
    end.
Qed.

Lemma write_error_in_dir (m : gmap path node) (t : string) (parent : path) :
  node_at m parent = Some Dir ->
  write_error m (t :: parent)
  = match m !! (t :: parent) with
    | Some Dir => Some IsADirectoryError
    | _ => None
    end.
Proof. intros Hd. unfold write_error. now rewrite Hd. Qed.

(** X8. On a well-formed tree with nothing in the way of the output
    directory, a directory that has the name of an image stops the run
    at that [save] with [IsADirectoryError]; the images before it stay
    saved and confirmed, and nothing is printed for it or after it. *)
Theorem X8_save_blocked_by_directory (E : environment) (w : world) :
  fs_wf (fs w) -> unobstructed (fs w) OUT_path ->
  (fs w !! banner_path = Some Dir ->
   (main E w).2 = inl IsADirectoryError /\ printed w (main E w).1 = []) /\
  (fs w !! banner_path <> Some Dir -> fs w !! idle_path = Some Dir ->
   (main E w).2 = inl IsADirectoryError /\
   printed w (main E w).1 = [banner_line] /\
   holds (fs (main E w).1) banner_path (banner_canvas E)) /\
  (fs w !! banner_path <> Some Dir -> fs w !! idle_path <> Some Dir ->
   fs w !! side_path = Some Dir ->
   (main E w).2 = inl IsADirectoryError /\
   printed w (main E w).1 = [banner_line; idle_line] /\
   holds (fs (main E w).1) banner_path (banner_canvas E) /\
   holds (fs (main E w).1) idle_path (idle_canvas E)).
Proof.
  intros Hwf Hfree.
  destruct (makedirs_unobstructed OUT_path w Hwf Hfree) as [u Hmk].
  pose proof (makedirs_isdir _ _ _ _ Hmk) as Hd.
  destruct (three_paths_after_makedirs w u Hmk) as (Hb & Hi & Hs).
  assert (write_error (fs u) banner_path
          = match fs w !! banner_path with
            | Some Dir => Some IsADirectoryError | _ => None end) as Heb
    by (rewrite <- Hb; now apply write_error_in_dir).
  assert (write_error (fs u) idle_path
          = match fs w !! idle_path with
            | Some Dir => Some IsADirectoryError | _ => None end) as Hei
    by (rewrite <- Hi; now apply write_error_in_dir).
  assert (write_error (fs u) side_path
          = match fs w !! side_path with
            | Some Dir => Some IsADirectoryError | _ => None end) as Hes
    by (rewrite <- Hs; now apply write_error_in_dir).
  destruct (main_outcome E w) as [Hout Hpr].
  destruct (main_printed_saved E w) as (Hsb & Hsi & _).
  rewrite Hpr in Hsb, Hsi. rewrite Hout, Hpr.
  unfold run_outcome, run_printed in *. rewrite Hmk, Heb, Hei, Hes in *.
  split; [| split].
  - intros Hdir. rewrite Hdir in *. split; reflexivity.
  - intros Hnb Hdir. rewrite Hdir in *.
    destruct (fs w !! banner_path) as [[| db] |]; try contradiction;
      cbv beta iota in Hsb |- *;
      (split; [reflexivity |]; split; [reflexivity |];
       apply Hsb, elem_of_cons; now left).
  - intros Hnb Hni Hdir. rewrite Hdir in *.
    destruct (fs w !! banner_path) as [[| db] |]; try contradiction;
      destruct (fs w !! idle_path) as [[| di] |]; try contradiction;
      cbv beta iota in Hsb, Hsi |- *;
      (split; [reflexivity |]; split; [reflexivity |]; split;
       [apply Hsb, elem_of_cons; now left
       | apply Hsi, elem_of_cons; right; apply elem_of_cons; now left]).
Qed.

(** ** The fonts in use *)

Lemma resolve_font_in_use (E : environment) (sz : Z) (bold : bool) :
  font_in_use E (resolve_font E sz bold).
Proof.
  unfold font_in_use, resolve_font.
  destruct (truetype_error E Helvetica sz (if bold then 1 else 0)) eqn:Hl;
    [now left | right].
  exists sz, (if bold then 1 else 0). repeat split; [| assumption].
  destruct bold; tauto.
Qed.

(** X10. Every text of every image a run makes is set either in the
    built-in font or in a face of Helvetica, regular or bold, that the
    loader did open at that size: never in a font whose loading failed,
    and never in another file. *)
Theorem X10_fonts_in_use (E : environment) (w : world) :
  Forall (fun c : canvas => Forall (font_in_use E) (fonts_of c))
    (produced w (main E w).1).
Proof.
  destruct (main_produced E w) as [k Hk].
  assert (Forall (fun c : canvas => Forall (font_in_use E) (fonts_of c))
            (canvases E)) as Hall
    by (unfold canvases, fonts_of; simpl;
        repeat match goal with |- Forall _ _ => constructor end;
        apply resolve_font_in_use).
  rewrite Hk in Hall. now apply Forall_app in Hall.
Qed.

(** X12. [os.makedirs] is idempotent with [exist_ok] and only with it:
    after a call that returned on a well-formed tree, a second call with
    [exist_ok] returns and changes nothing, and one without raises
    [FileExistsError]. *)
Theorem X12_makedirs_idempotent (name : path) (exist_ok : bool)
    (w u : world) :
  fs_wf (fs w) -> makedirs name exist_ok w = (u, inr tt) ->
  makedirs name true u = (u, inr tt) /\
  makedirs name false u = (u, inl FileExistsError).
Proof.
  intros Hwf Hmk.
  pose proof (makedirs_isdir _ _ _ _ Hmk) as Hd.
  pose proof (makedirs_grows name exist_ok w) as (_ & _ & _ & Hwf').
  rewrite Hmk in Hwf'. specialize (Hwf' Hwf).
  split; [now apply makedirs_existing | now apply makedirs_existing_strict].
Qed.

(** X13. However a run ends, it leaves a well-formed tree well formed:
    no file is written and no directory made but in a directory. *)
Theorem X13_tree_stays_well_formed (E : environment) (w : world) :
  fs_wf (fs w) -> fs_wf (fs (main E w).1).
Proof. intros Hwf. now apply main_wf. Qed.

(** * The theorems at work on sample worlds *)

Lemma fs_wf_empty : fs_wf ∅.
Proof. intros t h n H. rewrite lookup_empty in H. discriminate. Qed.

Lemma admits_empty : admits ∅.
Proof.
  split; [apply fs_wf_empty |]. split.
  - intros q d _. destruct q; simpl; [| rewrite lookup_empty]; discriminate.
  - repeat split; rewrite lookup_empty; discriminate.
Qed.

Lemma fs_wf_ready : fs_wf (fs w_ready).
Proof.
  apply (makedirs_grows (components OUT) true w0). apply fs_wf_empty.
Qed.

Lemma C1_witness :
  exists b i s : canvas,
    holds (fs (main fonts_absent w0).1) banner_path b /\ size b = (1080, 90) /\
    holds (fs (main fonts_absent w0).1) idle_path i /\ size i = (1080, 240) /\
    holds (fs (main fonts_absent w0).1) side_path s /\ size s = (1080, 120).
Proof.
  apply (proj2 (C1_image_dimensions fonts_absent w0)).
  apply returns_snd. vm_compute. reflexivity.
Defined.



Lemma C3_witness :
  font fonts_absent 22 true w0 = (w0, inr DefaultFont) /\
  (exists w' : world, main fonts_absent w0 = (w', inr tt)) /\
  (exists w' : world, main fonts_absent w_used = (w', inr tt)) /\
  (exists b i s : canvas,
      holds (fs (main fonts_absent w0).1) banner_path b /\
      holds (fs (main fonts_absent w0).1) idle_path i /\
      holds (fs (main fonts_absent w0).1) side_path s /\
      Forall (fun c : canvas => Forall (eq DefaultFont) (fonts_of c)) [b; i; s]).
Proof.
  assert (forall (sz : Z) (idx : Z),
            truetype_error fonts_absent Helvetica sz idx <> None) as Habs
    by discriminate.
  split; [| split; [| split]].
  - apply (proj1 (C3_font_fallback fonts_absent) 22 true
             (OSError "cannot open resource") w0).
    reflexivity.
  - apply (proj1 (proj2 (C3_font_fallback fonts_absent) Habs) w0).
    apply admits_empty.
  - apply (proj1 (proj2 (proj2 (C3_font_fallback fonts_absent) Habs))
             fonts_present w_used (main fonts_present w_used).1).
    apply returns_snd. vm_compute. reflexivity.
  - apply (proj2 (proj2 (proj2 (C3_font_fallback fonts_absent) Habs)) w0).
    apply returns_snd. vm_compute. reflexivity.
Defined.

Lemma C4_witness :
  exists c : canvas,
    produced w_ready (idle_block fonts_present w_ready).1 = [c] /\
    holds (fs (idle_block fonts_present w_ready).1) idle_path c /\
    printed w_ready (idle_block fonts_present w_ready).1 = [idle_line] /\
    background c = BG /\ rule_count c = 2%nat /\ text_count c = 4%nat.
Proof.
  apply (proj1 (proj2 (C4_blocks_render fonts_present)) w_ready).
  apply returns_snd. vm_compute. reflexivity.
Defined.

(** C4, as the specification words it, fails on the idle block: run where
    the output directory is there, it returns having put four texts on
    its canvas, not two or three. *)
Lemma C4_counterexample :
  exists (w' : world) (c : canvas),
    idle_block fonts_present w_ready = (w', inr tt) /\
    produced w_ready w' = [c] /\
    text_count c = 4%nat /\
    ~ (2 <= text_count c <= 3)%nat.
Proof.
  exists (idle_block fonts_present w_ready).1, (idle_canvas fonts_present).
  split; [apply returns_snd; vm_compute; reflexivity |].
  split; [vm_compute; reflexivity |].
  split; [reflexivity |].
  change (text_count (idle_canvas fonts_present)) with 4%nat. lia.
Qed.

Lemma C5_witness :
  (printed w0 (main fonts_present w0).1
   = [banner_line; idle_line; side_line; summary_line] /\
   text_lines (output_text (printed w0 (main fonts_present w0).1))
   = [banner_line; idle_line; side_line; EmptyString;
      "All ads saved to " +:+ OUT]) /\
  holds (fs (main fonts_present w0).1) banner_path (banner_canvas fonts_present) /\
  printed w_idle_taken (main fonts_present w_idle_taken).1
    `prefix_of` [banner_line; idle_line; side_line].
Proof.
  assert (printed w0 (main fonts_present w0).1
          = [banner_line; idle_line; side_line; summary_line] /\
          text_lines (output_text (printed w0 (main fonts_present w0).1))
          = [banner_line; idle_line; side_line; EmptyString;
             "All ads saved to " +:+ OUT]) as Hall.
  { apply (proj1 (proj2 (proj2 (proj2 (proj2
             (C5_standard_output fonts_present w0)))))).
    apply returns_snd. vm_compute. reflexivity. }
  split; [exact Hall |]. split.
  - apply (proj1 (proj2 (C5_standard_output fonts_present w0))).
    rewrite (proj1 Hall). apply elem_of_cons. now left.
  - apply (proj2 (proj2 (proj2 (proj2 (proj2
             (C5_standard_output fonts_present w_idle_taken)))))
             _ IsADirectoryError).
    apply raises_snd. vm_compute. reflexivity.
Defined.

(** C5, as the specification words it, fails in two ways.  Where [/Users]
    is a regular file the run is over at [os.makedirs] and has printed
    nothing, not four lines; and a run that returns has put five lines on
    standard output, the fourth of them empty. *)
Lemma C5_counterexample :
  (main fonts_present w_obstructed).2 = inl NotADirectoryError /\
  printed w_obstructed (main fonts_present w_obstructed).1 = [] /\
  (main fonts_present w0).2 = inr tt /\
  text_lines (output_text (printed w0 (main fonts_present w0).1))
  = [banner_line; idle_line; side_line; EmptyString;
     "All ads saved to " +:+ OUT] /\
  length (text_lines (output_text (printed w0 (main fonts_present w0).1)))
  <> 4%nat.
Proof.
  split; [vm_compute; reflexivity |].
  split; [vm_compute; reflexivity |].
  split; [vm_compute; reflexivity |].
  split; [vm_compute; reflexivity |].
  vm_compute. discriminate.
Qed.

Lemma C6_witness :
  (exists u : world,
      os_makedirs OUT true w0 = (u, inr tt) /\
      node_at (fs u) OUT_path = Some Dir /\ grows OUT_path w0 u) /\
  os_makedirs OUT true w_ready = (w_ready, inr tt) /\
  main fonts_present (main fonts_present w0).1
  = (World (fs (main fonts_present w0).1)
       (stdout (main fonts_present w0).1 ++ lines)
       (heap (main fonts_present w0).1 ++ canvases fonts_present), inr tt).
Proof.
  split; [| split].
  - apply (proj1 (proj2 (C6_output_directory fonts_present w0 fs_wf_empty))).
    apply admits_empty.
  - apply (proj1 (proj2 (proj2
             (C6_output_directory fonts_present w_ready fs_wf_ready)))).
    vm_compute. reflexivity.
  - apply (proj2 (proj2 (proj2
             (C6_output_directory fonts_present w0 fs_wf_empty)))).
    apply returns_snd. vm_compute. reflexivity.
Defined.

Lemma C7_witness :
  draw_gold_line (Draw 0) 1 1080 40 w_blank
  = (set_heap
       (<[im (Draw 0) :=
            add_op (OpLine [(40, 1); (1080 - 40, 1)] (30, 30, 30) 1)
              (Canvas "RGB" (1080, 90) BG [])]> (heap w_blank)) w_blank,
     inr tt).
Proof.
  apply (C7_draw_gold_line (Draw 0) 1 1080 40 w_blank
           (Canvas "RGB" (1080, 90) BG [])).
  reflexivity.
Defined.



Lemma C9_witness : length (produced w0 (main fonts_present w0).1) = 3%nat.
Proof.
  apply (proj2 (C9_canvas_width_invariant fonts_present w0)).
  apply returns_snd. vm_compute. reflexivity.
Defined.



(** ** The further properties on sample worlds *)

Lemma fs_wf_obstructed : fs_wf (fs w_obstructed).
Proof.
  intros t h n H. simpl in H.
  apply lookup_singleton_Some in H as [H _]. now injection H as _ <-.
Qed.

Lemma ready_only_dirs (q : path) (n : node) :
  fs w_ready !! q = Some n -> n = Dir.
Proof.
  pose proof (makedirs_grows (components OUT) true w0) as (_ & _ & Hq & _).
  intros H. unfold w_ready, os_makedirs in H.
  destruct (Hq q) as [Heq | (_ & Hd & _)].
  - rewrite Heq in H. unfold w0 in H. cbn [fs] in H.
    rewrite lookup_empty in H. discriminate H.
  - rewrite Hd in H. now injection H as <-.
Qed.

Lemma fs_wf_idle_taken : fs_wf (fs w_idle_taken).
Proof.
  apply (fs_wf_insert_dir (fs w_ready) "ad-idle-1080x240.png" OUT_path).
  - apply fs_wf_ready.
  - vm_compute. reflexivity.
  - vm_compute. reflexivity.
Qed.

Lemma unobstructed_idle_taken : unobstructed (fs w_idle_taken) OUT_path.
Proof.
  intros q d _ Hq. destruct q as [| t q]; [discriminate |].
  simpl in Hq. rewrite lookup_insert in Hq. case_decide; [discriminate |].
  apply ready_only_dirs in Hq. discriminate.
Qed.

Lemma X3_witness :
  fs (main fonts_present w_used).1 !! ["notes.txt"; "Users"]
  = fs w_used !! ["notes.txt"; "Users"] \/
  (fs w_used !! ["notes.txt"; "Users"] = None /\
   fs (main fonts_present w_used).1 !! ["notes.txt"; "Users"] = Some Dir /\
   ["notes.txt"; "Users"] `suffix_of` OUT_path).
Proof.
  apply (X3_other_files_untouched fonts_present w_used ["notes.txt"; "Users"]);
    discriminate.
Defined.

Lemma X5_witness :
  holds (fs (main fonts_present w0).1) banner_path (banner_canvas fonts_present) /\
  holds (fs (main fonts_present w0).1) idle_path (idle_canvas fonts_present) /\
  holds (fs (main fonts_present w0).1) side_path (side_canvas fonts_present).
Proof.
  apply (proj2 (X5_summary_truthful fonts_present w0)).
  apply (proj1 (X5_summary_truthful fonts_present w0)).
  vm_compute. reflexivity.
Defined.

Lemma X6_witness : admits (fs w0).
Proof.
  apply (X6_returns_only_if_admits fonts_present w0 (main fonts_present w0).1).
  - apply fs_wf_empty.
  - apply returns_snd. vm_compute. reflexivity.
Defined.

Lemma X7_witness :
  main fonts_present w_obstructed
  = (w_obstructed,
     inl (match node_at (fs w_obstructed) OUT_path with
          | Some (File _) => FileExistsError
          | _ => NotADirectoryError
          end)).
Proof.
  apply (X7_obstructed_run fonts_present w_obstructed ["Users"] (Bytes "")).
  - apply fs_wf_obstructed.
  - exists ["ads"; "public"; "PoolCue-v2"; "claude projects"; "Desktop";
            "frankgranato"]. reflexivity.
  - vm_compute. reflexivity.
Defined.

Lemma X8_witness :
  (main fonts_present w_idle_taken).2 = inl IsADirectoryError /\
  printed w_idle_taken (main fonts_present w_idle_taken).1 = [banner_line] /\
  holds (fs (main fonts_present w_idle_taken).1) banner_path
    (banner_canvas fonts_present).
Proof.
  apply (proj1 (proj2 (X8_save_blocked_by_directory fonts_present w_idle_taken
                         fs_wf_idle_taken unobstructed_idle_taken))).
  - vm_compute. discriminate.
  - vm_compute. reflexivity.
Defined.

Lemma X12_witness :
  makedirs OUT_path true w_ready = (w_ready, inr tt) /\
  makedirs OUT_path false w_ready = (w_ready, inl FileExistsError).
Proof.
  apply (X12_makedirs_idempotent OUT_path true w0 w_ready fs_wf_empty).
  apply (returns_snd (makedirs OUT_path true w0)).
  vm_compute. reflexivity.
Defined.

Lemma X13_witness : fs_wf (fs (main fonts_present w0).1).
Proof.
  apply (X13_tree_stays_well_formed fonts_present w0). apply fs_wf_empty.
Defined.
